(** * The sandbox executor of super_chatgpt.py

    A shallow embedding of [run_python_sandbox] (src/super_chatgpt.py,
    lines 77-123) together with a small model of the operating-system
    services it calls: [tempfile.NamedTemporaryFile], [subprocess.Popen],
    [Popen.communicate], [Popen.kill], [resource.setrlimit] and [os.remove].

    The Python function is written in a state-and-exception monad; the
    library calls are functions of that monad whose behaviour follows the
    documentation of the CPython standard library. Everything the host
    decides (which names the temp-file generator draws, whether the
    [resource] module exists, which programs are installed, what the child
    does once it runs) is a field of the record [Env]. *)

From stdpp Require Import gmap strings list.
From stdpp Require Import sorting.
From Stdlib Require Import ZArith Lia Ascii.

Local Open Scope string_scope.

(** ** Python values and exceptions *)

Inductive pyval :=
| PyInt (n : Z)
| PyStr (s : string)
| PyBytes (b : string)
| PyNone.

#[global] Instance pyval_eq_dec : EqDecision pyval.
Proof. solve_decision. Defined.

(** The exception classes that the modelled calls can raise. Every one of
    them derives from [Exception]; [TimeoutExpired] derives from
    [SubprocessError], the three file errors from [OSError], and
    [UnicodeDecodeError] from [ValueError]. *)
Inductive exn :=
| ModuleNotFoundError
| FileExistsError
| FileNotFoundError
| PermissionError
| OSError
| ValueError
| SubprocessError
| TimeoutExpired
| UnicodeDecodeError.

#[global] Instance exn_eq_dec : EqDecision exn.
Proof. solve_decision. Defined.

(** [except Exception] *)
Definition isinstance_Exception (e : exn) : bool := true.

(** [except subprocess.TimeoutExpired] *)
Definition isinstance_TimeoutExpired (e : exn) : bool :=
  match e with TimeoutExpired => true | _ => false end.

(** ** A state-and-exception monad *)

Inductive outcome (A : Type) :=
| Return (a : A)
| Raise (e : exn).
Arguments Return {A} a.
Arguments Raise {A} e.

Definition Eff (S A : Type) : Type := S → outcome A * S.

#[global] Instance Eff_ret {S} : MRet (Eff S) := λ A a s, (Return a, s).

#[global] Instance Eff_bind {S} : MBind (Eff S) := λ A B f m s,
  match m s with
  | (Return a, s') => f a s'
  | (Raise e, s') => (Raise e, s')
  end.

Definition raise {S A} (e : exn) : Eff S A := λ s, (Raise e, s).
Definition get {S} : Eff S S := λ s, (Return s, s).
Definition modify {S} (f : S → S) : Eff S unit := λ s, (Return tt, f s).

(** [try: body / except <classes>: handler]. The handler table answers
    [None] for an exception that no [except] clause matches. *)
Definition try_except {S A} (body : Eff S A) (handler : exn → option (Eff S A))
  : Eff S A := λ s,
  match body s with
  | (Return a, s') => (Return a, s')
  | (Raise e, s') =>
      match handler e with
      | Some h => h s'
      | None => (Raise e, s')
      end
  end.

(** [try: body / finally: fin]. The [finally] suite runs on both ways out;
    an exception of its own replaces the pending result. *)
Definition try_finally {S A} (body : Eff S A) (fin : Eff S unit) : Eff S A := λ s,
  match body s with
  | (r, s') =>
      match fin s' with
      | (Return _, s'') => (r, s'')
      | (Raise e, s'') => (Raise e, s'')
      end
  end.

(** ** Resource limits of a process *)

Inductive rlim :=
| Lim (n : Z)
| RLIM_INFINITY.

#[global] Instance rlim_eq_dec : EqDecision rlim.
Proof. solve_decision. Defined.

Definition rlim_leb (a b : rlim) : bool :=
  match a, b with
  | _, RLIM_INFINITY => true
  | RLIM_INFINITY, Lim _ => false
  | Lim x, Lim y => (x <=? y)%Z
  end.

Inductive rresource := RLIMIT_CPU | RLIMIT_AS.

#[global] Instance rresource_eq_dec : EqDecision rresource.
Proof. solve_decision. Defined.

(** A limit is a pair (soft, hard), as [resource.getrlimit] returns it. *)
Record limits := {
  lim_cpu : rlim * rlim;
  lim_as : rlim * rlim;
}.

#[global] Instance limits_eq_dec : EqDecision limits.
Proof. solve_decision. Defined.

Definition getrlimit_of (r : rresource) (l : limits) : rlim * rlim :=
  match r with RLIMIT_CPU => lim_cpu l | RLIMIT_AS => lim_as l end.

Definition setrlimit_of (r : rresource) (v : rlim * rlim) (l : limits) : limits :=
  match r with
  | RLIMIT_CPU => {| lim_cpu := v; lim_as := lim_as l |}
  | RLIMIT_AS => {| lim_cpu := lim_cpu l; lim_as := v |}
  end.

(** What a process has done so far, oldest first. *)
Inductive syscall :=
| SysSetrlimit (r : rresource) (soft hard : rlim)
| SysExecve (program : string) (argv : list string).

#[global] Instance syscall_eq_dec : EqDecision syscall.
Proof. solve_decision. Defined.

(** The execution context of one process: its limits, whether it may raise
    hard limits (CAP_SYS_RESOURCE), and its system calls so far. *)
Record process := {
  rlimits : limits;
  privileged : bool;
  syscalls : list syscall;
}.

#[global] Instance process_eq_dec : EqDecision process.
Proof. solve_decision. Defined.

(** [resource.setrlimit(r, (soft, hard))] in the calling process. It raises
    [ValueError] when the soft limit exceeds the hard limit, and when a
    process without privilege tries to raise its hard limit. *)
Definition setrlimit (r : rresource) (v : rlim * rlim) : Eff process unit := λ p,
  let '(soft, hard) := v in
  let '(_, cur_hard) := getrlimit_of r (rlimits p) in
  if negb (rlim_leb soft hard) then (Raise ValueError, p)
  else if negb (privileged p) && negb (rlim_leb hard cur_hard) then (Raise ValueError, p)
  else (Return tt,
        {| rlimits := setrlimit_of r v (rlimits p);
           privileged := privileged p;
           syscalls := syscalls p ++ [SysSetrlimit r soft hard] |}).

(** ** Child processes as the parent sees them *)

Inductive redirect := Inherit | PIPE | STDOUT | DEVNULL.

#[global] Instance redirect_eq_dec : EqDecision redirect.
Proof. solve_decision. Defined.

Inductive stream := Out | Err.

#[global] Instance stream_eq_dec : EqDecision stream.
Proof. solve_decision. Defined.

(** What a program does once it runs: the bytes it writes, chunk by chunk
    and in order, on its standard output and standard error; the wall-clock
    time after which it exits on its own ([None]: it never does); its exit
    status; when its pipes are closed; and what it does to the files. *)
Record behaviour := {
  writes : list (stream * string);
  runtime_ms : option Z;
  exit_status : Z;
  (* when both pipes reach end of file ([None]: never): every holder of
     their write ends, the child or a descendant, has closed them *)
  eof_ms : option Z;
  (* what the child and its descendants have done to the files by the
     time the parent stops waiting *)
  touches : gmap string string → gmap string string;
}.

Inductive pstatus :=
| Running
| Exited (rc : Z)      (* ended on its own, exit status not yet collected *)
| Signalled            (* SIGKILL sent by the parent, child not waited for *)
| Reaped (rc : Z).     (* the parent collected the exit status *)

#[global] Instance pstatus_eq_dec : EqDecision pstatus.
Proof. solve_decision. Defined.

Record child := {
  ctx : process;
  stdout_to : redirect;
  stderr_to : redirect;
  text_mode : bool;                (* pipes are read as text, not bytes *)
  does : behaviour;
  status : pstatus;
}.

(** The calls the parent makes on the host, oldest first. *)
Inductive oscall :=
| CallMkstemp (path : string)
| CallWrite (path : string)
| CallPopen (argv : list string) (with_preexec : bool)
| CallCommunicate (pid : nat) (timeout : Z)
| CallKill (pid : nat)
| CallRemove (path : string).

#[global] Instance oscall_eq_dec : EqDecision oscall.
Proof. solve_decision. Defined.

Record World := {
  files : gmap string string;      (* path to content *)
  children : gmap nat child;       (* pid to child of this process *)
  next_pid : nat;
  self : process;                  (* the process that runs the executor *)
  console : list pyval;            (* the objects this process printed *)
  history : list oscall;
}.

(** The state the function runs in: the host, and the local variable
    [proc], which the [except] clause reads after the [try] suite set it. *)
Record Machine := {
  world : World;
  proc : option nat;
}.

Definition on_world (f : World → World) (m : Machine) : Machine :=
  {| world := f (world m); proc := proc m |}.

Definition set_files (fs : gmap string string) (w : World) : World :=
  {| files := fs; children := children w; next_pid := next_pid w;
     self := self w; console := console w; history := history w |}.

Definition set_children (cs : gmap nat child) (n : nat) (w : World) : World :=
  {| files := files w; children := cs; next_pid := n;
     self := self w; console := console w; history := history w |}.

Definition record_call (c : oscall) (w : World) : World :=
  {| files := files w; children := children w; next_pid := next_pid w;
     self := self w; console := console w; history := history w ++ [c] |}.

Definition set_status (st : pstatus) (c : child) : child :=
  {| ctx := ctx c; stdout_to := stdout_to c; stderr_to := stderr_to c;
     text_mode := text_mode c; does := does c; status := st |}.

Definition assign_proc (p : option nat) : Eff Machine unit :=
  modify (λ m, {| world := world m; proc := p |}).

(** [print(x)] *)
Definition py_print (x : pyval) : Eff Machine unit :=
  modify (on_world (λ w,
    {| files := files w; children := children w; next_pid := next_pid w;
       self := self w; console := console w ++ [x]; history := history w |})).

(** [d.get(key, default)] *)
Definition dict_get (d : gmap string pyval) (key : string) (dflt : pyval) : pyval :=
  default dflt (d !! key).

(** ** The host *)

Record Env := {
  sys_executable : string;
  has_resource : bool;               (* [import resource] succeeds *)
  tmp_dir : string;
  tmp_random : list string;          (* the names the generator draws *)
  disk_full : bool;                  (* writing to the temp file fails *)
  programs : gmap string bool;       (* program files: path to may-execute *)
  search_path : list string;         (* the directories of PATH *)
  interpreter : list string → option string → limits → behaviour;
  remove_denied : bool;              (* unlinking in [tmp_dir] fails *)
  decode : string → option string;   (* the codec of the locale, strict *)
}.

Section Host.
Variable env : Env.

(** *** tempfile *)

(** [tempfile._mkstemp_inner]: draw names until one is free. *)
Fixpoint mkstemp_inner (suffix : string) (fs : gmap string string)
    (draws : list string) : option string :=
  match draws with
  | [] => None
  | r :: rest =>
      let path := tmp_dir env +:+ "/tmp" +:+ r +:+ suffix in
      match fs !! path with
      | None => Some path
      | Some _ => mkstemp_inner suffix fs rest
      end
  end.

(** [tempfile.NamedTemporaryFile("w", suffix=..., delete=False)]; the
    result stands for [tf], of which only [tf.name] is used. *)
Definition NamedTemporaryFile (suffix : string) : Eff Machine string := λ m,
  match mkstemp_inner suffix (files (world m)) (tmp_random env) with
  | None => (Raise FileExistsError, m)
  | Some path =>
      (Return path,
       on_world (λ w, record_call (CallMkstemp path)
                        (set_files (<[path := ""]> (files w)) w)) m)
  end.

(** [tf.write(code)] and the close at the end of the [with] block. With
    [delete=False] the file stays even when the write fails. *)
Definition tf_write (tf : string) (code : string) : Eff Machine unit := λ m,
  let m := on_world (record_call (CallWrite tf)) m in
  if disk_full env then (Raise OSError, m)
  else (Return tt, on_world (λ w, set_files (<[tf := code]> (files w)) w) m).

(** *** os *)

(** [os.remove(path)] *)
Definition os_remove (path : string) : Eff Machine unit := λ m,
  let m := on_world (record_call (CallRemove path)) m in
  match files (world m) !! path with
  | None => (Raise FileNotFoundError, m)
  | Some _ =>
      if remove_denied env then (Raise PermissionError, m)
      else (Return tt, on_world (λ w, set_files (delete path (files w)) w) m)
  end.

(** *** resource *)

(** [import resource] *)
Definition import_resource : Eff Machine unit := λ m,
  if has_resource env then (Return tt, m) else (Raise ModuleNotFoundError, m).

(** *** subprocess *)

Definition contains_slash (s : string) : bool :=
  existsb (λ a, bool_decide (a = "/"%char)) (String.list_ascii_of_string s).

(** The candidates [_execute_child] hands to [fork_exec]: the program
    itself when its name has a directory part, otherwise the name under
    each directory of PATH. *)
Definition executable_list (program : string) : list string :=
  if contains_slash program then [program]
  else map (λ d, d +:+ "/" +:+ program) (search_path env).

(** The child tries the candidates in turn (child_exec in
    _posixsubprocess.c). The first that executes wins; otherwise the first
    error other than ENOENT is reported, or ENOENT. *)
Fixpoint execve_first (cands : list string) (saved : option exn) : exn + string :=
  match cands with
  | [] => inl (default FileNotFoundError saved)
  | c :: rest =>
      match programs env !! c with
      | Some true => inr c
      | Some false =>
          execve_first rest (Some (default PermissionError saved))
      | None => execve_first rest saved
      end
  end.

Definition fork (parent : process) : process :=
  {| rlimits := rlimits parent; privileged := privileged parent; syscalls := [] |}.

Definition execve (program : string) (argv : list string) (p : process) : process :=
  {| rlimits := rlimits p; privileged := privileged p;
     syscalls := syscalls p ++ [SysExecve program argv] |}.

(** What the forked child does before it executes the program. *)
Definition run_preexec (preexec_fn : option (Eff process unit)) (c : process)
  : outcome unit * process :=
  match preexec_fn with
  | None => (Return tt, c)
  | Some f => f c
  end.

(** The program file that [args] designates, or the error of the exec. *)
Definition resolve (args : list string) : exn + string :=
  execve_first (executable_list (default "" (head args))) None.

(** [subprocess.Popen(args, stdout=..., stderr=..., text=...,
    preexec_fn=...)] on a POSIX host. The child is forked, runs
    [preexec_fn] in its own context, then executes the program, which
    reads the script named by its last argument. A failure of either step
    is raised in the parent, which has by then reaped the child. The
    result is the pid, standing for the Popen object. *)
Definition Popen (args : list string) (stdout stderr : redirect) (text : bool)
    (preexec_fn : option (Eff process unit)) : Eff Machine nat := λ m,
  let m := on_world (record_call (CallPopen args (bool_decide (is_Some preexec_fn)))) m in
  let w := world m in
  match run_preexec preexec_fn (fork (self w)) with
  | (Raise _, _) => (Raise SubprocessError, m)
  | (Return _, c) =>
      match resolve args with
      | inl e => (Raise e, m)
      | inr program =>
          let c := execve program args c in
          let pid := next_pid w in
          let ch := {| ctx := c; stdout_to := stdout; stderr_to := stderr;
                       text_mode := text;
                       does := interpreter env args (files w !! default "" (last args))
                                 (rlimits c);
                       status := Running |} in
          (Return pid,
           on_world (set_children (<[pid := ch]> (children w)) (S pid)) m)
      end
  end.

(** The text a pipe receives. Chunks written to standard error travel with
    those of standard output only when [stderr=STDOUT]. *)
Definition routed_to (s : stream) (stderr : redirect) (w : stream * string) : bool :=
  match s, fst w with
  | Out, Out => true
  | Out, Err => bool_decide (stderr = STDOUT)
  | Err, Err => bool_decide (stderr = PIPE)
  | Err, Out => false
  end.

Definition piped (s : stream) (stderr : redirect) (ws : list (stream * string)) : string :=
  foldr (λ w acc, snd w +:+ acc) "" (filter (λ w, routed_to s stderr w = true) ws).

Definition CR : ascii := Ascii.ascii_of_nat 13.
Definition LF : ascii := Ascii.ascii_of_nat 10.

(** [data.replace("\r\n", "\n")] *)
Fixpoint replace_crlf (data : string) : string :=
  match data with
  | EmptyString => EmptyString
  | String a rest =>
      match rest with
      | String b rest' =>
          if Ascii.eqb a CR && Ascii.eqb b LF then String LF (replace_crlf rest')
          else String a (replace_crlf rest)
      | EmptyString => String a EmptyString
      end
  end.

(** [data.replace("\r", "\n")] *)
Fixpoint replace_cr (data : string) : string :=
  match data with
  | EmptyString => EmptyString
  | String a rest => String (if Ascii.eqb a CR then LF else a) (replace_cr rest)
  end.

(** [Popen._translate_newlines], after the decoding. *)
Definition translate_newlines (text : string) : string :=
  replace_cr (replace_crlf text).

(** What [communicate] makes of the bytes of a pipe: with [text=True] they
    are decoded, which can fail, and line ends are translated. *)
Definition captured (s : stream) (c : child) : exn + pyval :=
  let cfg := match s with Out => stdout_to c | Err => stderr_to c end in
  match cfg with
  | PIPE =>
      let data := piped s (stderr_to c) (writes (does c)) in
      if text_mode c then
        match decode env data with
        | Some text => inr (PyStr (translate_newlines text))
        | None => inl UnicodeDecodeError
        end
      else inr (PyBytes data)
  | _ => inr PyNone
  end.

(** Does the child exit on its own within [timeout] seconds? *)
Definition exits_within (timeout : Z) (b : behaviour) : bool :=
  match runtime_ms b with
  | Some ms => (ms <=? 1000 * timeout)%Z
  | None => false
  end.

(** Are both pipes at end of file within [timeout] seconds? *)
Definition pipes_closed_within (timeout : Z) (b : behaviour) : bool :=
  match eof_ms b with
  | Some ms => (ms <=? 1000 * timeout)%Z
  | None => false
  end.

(** The two texts [communicate] returns, standard output decoded first. *)
Definition both_captured (c : child) : outcome (pyval * pyval) :=
  match captured Out c with
  | inl e => Raise e
  | inr out =>
      match captured Err c with
      | inl e => Raise e
      | inr err => Return (out, err)
      end
  end.

(** [proc.communicate(timeout=timeout)]: read both pipes to the end, wait
    for the child, then decode what was read; or raise [TimeoutExpired]
    when the pipes are not closed or the child has not ended in time, and
    leave the child as it is. *)
Definition communicate (pid : nat) (timeout : Z) : Eff Machine (pyval * pyval) := λ m,
  let m := on_world (record_call (CallCommunicate pid timeout)) m in
  let w := world m in
  match children w !! pid with
  | None => (Raise ValueError, m)
  | Some c =>
      match status c with
      | Reaped _ => (both_captured c, m)
      | _ =>
          let b := does c in
          let fs := touches b (files w) in
          if exits_within timeout b && pipes_closed_within timeout b then
            let c' := set_status (Reaped (exit_status b)) c in
            (both_captured c,
             on_world (λ w, set_files fs
                              (set_children (<[pid := c']> (children w)) (next_pid w) w)) m)
          else
            let c' := if exits_within timeout b
                      then set_status (Exited (exit_status b)) c else c in
            (Raise TimeoutExpired,
             on_world (λ w, set_files fs
                              (set_children (<[pid := c']> (children w)) (next_pid w) w)) m)
      end
  end.

(** [proc.returncode] *)
Definition returncode (pid : nat) : Eff Machine pyval := λ m,
  match children (world m) !! pid with
  | Some c =>
      match status c with
      | Reaped rc => (Return (PyInt rc), m)
      | _ => (Return PyNone, m)
      end
  | None => (Return PyNone, m)
  end.

(** [proc.kill()]. It polls first: a child that has ended is reaped and
    no signal is sent. Otherwise SIGKILL is delivered to the child. The call
    returns at once; it does not wait for the child. *)
Definition kill (pid : nat) : Eff Machine unit := λ m,
  let m := on_world (record_call (CallKill pid)) m in
  let w := world m in
  match children w !! pid with
  | Some c =>
      match status c with
      | Running =>
          (Return tt,
           on_world (set_children (<[pid := set_status Signalled c]> (children w))
                       (next_pid w)) m)
      | Exited rc =>
          (Return tt,
           on_world (set_children (<[pid := set_status (Reaped rc) c]> (children w))
                       (next_pid w)) m)
      | _ => (Return tt, m)
      end
  | None => (Return tt, m)
  end.

(** ** run_python_sandbox *)

(** The nested function [_limit] (lines 97-101). *)
Definition _limit : Eff process unit :=
  setrlimit RLIMIT_CPU (Lim 2, Lim 2);;
  setrlimit RLIMIT_AS (Lim (200 * 1024 * 1024), Lim (200 * 1024 * 1024)).

Definition python_cmd (tmp_path : string) : list string :=
  [sys_executable env; "-I"; tmp_path].

(** Lines 93-104: the value of [preexec_fn]. *)
Definition choose_preexec_fn : Eff Machine (option (Eff process unit)) :=
  try_except
    (import_resource;;
     mret (Some _limit))
    (λ e, if isinstance_Exception e then Some (mret None) else None).

Definition completed_dict (rc out err : pyval) : gmap string pyval :=
  {[ "returncode" := rc; "stdout" := out; "stderr" := err ]}.

Definition timeout_dict : gmap string pyval :=
  {[ "error" := PyStr "timeout"; "stdout" := PyStr "";
     "stderr" := PyStr "Execution timed out" ]}.

(** Lines 92-118: the [try] suite with its [except] clause. *)
Definition try_suite (tmp_path : string) (timeout : Z)
  : Eff Machine (gmap string pyval) :=
  try_except
    (preexec_fn ← choose_preexec_fn;
     p ← Popen (python_cmd tmp_path) PIPE PIPE true preexec_fn;
     assign_proc (Some p);;
     r ← communicate p timeout;
     rc ← returncode p;
     mret (completed_dict rc (fst r) (snd r)))
    (λ e,
       if isinstance_TimeoutExpired e then
         Some (m ← get;
               match proc m with
               | Some p => kill p
               | None => mret tt
               end;;
               mret timeout_dict)
       else None).

(** Lines 119-123: the [finally] suite. *)
Definition finally_suite (tmp_path : string) : Eff Machine unit :=
  try_except (os_remove tmp_path)
    (λ e, if isinstance_Exception e then Some (mret tt) else None).

Definition run_python_sandbox (code : string) (timeout : Z)
  : Eff Machine (gmap string pyval) :=
  tf ← NamedTemporaryFile ".py";
  tf_write tf code;;
  let tmp_path := tf in
  assign_proc None;;
  try_finally (try_suite tmp_path timeout) (finally_suite tmp_path).

(** ** The caller *)

(** Lines 258-267 of [repl_loop]: the command [:run <code>]. *)
Definition repl_run (user_in : string) : Eff Machine unit :=
  let code := String.substring 5 (String.length user_in - 5) user_in in
  py_print (PyStr "[running code snippet]");;
  r ← run_python_sandbox code 4;
  py_print (PyStr "=== STDOUT ===");;
  py_print (dict_get r "stdout" (PyStr ""));;
  py_print (PyStr "=== STDERR ===");;
  py_print (dict_get r "stderr" (PyStr "")).

End Host.

(** * Notions used in the statements *)

(** ** The states a call goes through *)

Section Stages.
Variable env : Env.

(** The value lines 93-104 leave in [preexec_fn]. *)
Definition preexec_of : option (Eff process unit) :=
  if has_resource env then Some _limit else None.

(** The state in which the [try] statement is entered: the temp file holds
    the code and [proc] is [None]. *)
Definition staged (path code : string) (m : Machine) : Machine :=
  let w := world m in
  {| world := {| files := <[path := code]> (files w);
                 children := children w; next_pid := next_pid w;
                 self := self w; console := console w;
                 history := history w ++ [CallMkstemp path; CallWrite path] |};
     proc := None |}.

(** The state the [finally] suite leaves. *)
Definition cleaned (path : string) (m : Machine) : Machine :=
  let w := world m in
  {| world := {| files := if remove_denied env then files w else delete path (files w);
                 children := children w; next_pid := next_pid w;
                 self := self w; console := console w;
                 history := history w ++ [CallRemove path] |};
     proc := proc m |}.

(** The child that [Popen] registers, and the same child once reaped or
    once signalled. *)
Definition spawned (path code : string) (prog : string) (c : process) (st : pstatus)
  : child :=
  {| ctx := execve prog (python_cmd env path) c;
     stdout_to := PIPE; stderr_to := PIPE; text_mode := true;
     does := interpreter env (python_cmd env path) (Some code) (rlimits c);
     status := st |}.

(** The state after [communicate]: the child is registered and the files
    are as the child has left them. *)
Definition with_child (call : list oscall) (ch : child) (m : Machine) : Machine :=
  let w := world m in
  {| world := {| files := touches (does ch) (files w);
                 children := <[next_pid w := ch]> (children w);
                 next_pid := S (next_pid w);
                 self := self w; console := console w;
                 history := history w ++ call |};
     proc := Some (next_pid w) |}.

Definition popen_call (path : string) : oscall :=
  CallPopen (python_cmd env path) (has_resource env).

(** Does [communicate] return within the deadline? *)
Definition finishes (timeout : Z) (b : behaviour) : bool :=
  exits_within timeout b && pipes_closed_within timeout b.

(** The two texts of a child, as [communicate] returns them with
    [text=True]: decoded and with line ends translated; [None] when the
    bytes of a stream do not decode. *)
Definition decoded (b : behaviour) : option (string * string) :=
  match decode env (piped Out PIPE (writes b)) with
  | Some out =>
      match decode env (piped Err PIPE (writes b)) with
      | Some err => Some (translate_newlines out, translate_newlines err)
      | None => None
      end
  | None => None
  end.

(** The state of a child after the [except] clause: reaped by the poll of
    [kill] when it had ended, sent the signal otherwise. *)
Definition after_kill (timeout : Z) (b : behaviour) : pstatus :=
  if exits_within timeout b then Reaped (exit_status b) else Signalled.

(** The state after a [Popen] that raised. *)
Definition failed_popen (path : string) (m : Machine) : Machine :=
  on_world (record_call (popen_call path)) m.

End Stages.

(** ** Later calls of [setrlimit] *)



(** ** The text of a stream *)



(** ** Hosts *)

(** The same host, where unlinking in the temp directory is refused or not. *)
Definition with_remove_denied (denied : bool) (env : Env) : Env :=
  {| sys_executable := sys_executable env;
     has_resource := has_resource env;
     tmp_dir := tmp_dir env;
     tmp_random := tmp_random env;
     disk_full := disk_full env;
     programs := programs env;
     search_path := search_path env;
     interpreter := interpreter env;
     remove_denied := denied;
     decode := decode env |}.

Module Hosts.

Definition no_limits : limits :=
  {| lim_cpu := (RLIM_INFINITY, RLIM_INFINITY);
     lim_as := (RLIM_INFINITY, RLIM_INFINITY) |}.

Definition user_process : process :=
  {| rlimits := no_limits; privileged := false; syscalls := [] |}.

Definition boot : Machine :=
  {| world := {| files := ∅; children := ∅; next_pid := 100;
                 self := user_process; console := []; history := [] |};
     proc := None |}.

(** [print('hi')], with a word on standard error as well. *)
Definition says_hi : behaviour :=
  {| writes := [(Out, "hi"); (Err, "warn"); (Out, "!")];
     runtime_ms := Some 30%Z; exit_status := 0;
     eof_ms := Some 30%Z; touches := id |}.

(** [while True: pass] *)
Definition spins : behaviour :=
  {| writes := [(Out, "started")]; runtime_ms := None; exit_status := 0;
     eof_ms := None; touches := id |}.




(** A codec that rejects the byte 255 and keeps all other bytes. *)
Definition strict (data : string) : option string :=
  if existsb (λ a, Ascii.eqb a (Ascii.ascii_of_nat 255))
       (String.list_ascii_of_string data)
  then None else Some data.

Definition host (resource : bool) (installed : gmap string bool)
    (b : behaviour) : Env :=
  {| sys_executable := "/usr/bin/python3";
     has_resource := resource;
     tmp_dir := "/tmp";
     tmp_random := ["abc"; "def"];
     disk_full := false;
     programs := installed;
     search_path := ["/usr/local/bin"; "/usr/bin"];
     interpreter := λ _ _ _, b;
     remove_denied := false;
     decode := strict |}.

Definition python3 : gmap string bool := {[ "/usr/bin/python3" := true ]}.

End Hosts.

(** ** A machine whose own CPU limit is already one second *)

Module Limited.

Definition one_second : limits :=
  {| lim_cpu := (Lim 1, Lim 1);
     lim_as := (RLIM_INFINITY, RLIM_INFINITY) |}.

Definition boot : Machine :=
  {| world := {| files := ∅; children := ∅; next_pid := 100;
                 self := {| rlimits := one_second; privileged := false;
                            syscalls := [] |};
                 console := []; history := [] |};
     proc := None |}.

(** A host on which the disk is full. *)
Definition full_disk : Env :=
  {| sys_executable := "/usr/bin/python3";
     has_resource := true;
     tmp_dir := "/tmp";
     tmp_random := ["abc"; "def"];
     disk_full := true;
     programs := Hosts.python3;
     search_path := ["/usr/bin"];
     interpreter := λ _ _ _, Hosts.says_hi;
     remove_denied := false;
     decode := Hosts.strict |}.

End Limited.

(** * The chat client of super_chatgpt.py *)

Module Chat.

(** ** Python objects, as [json.load] builds them *)

(** Numbers are integers here; a conversation file with a fractional number
    is outside the model. *)
#[warnings="-register-all"]
Inductive pyobj :=
| ONone
| OBool (b : bool)
| OInt (n : Z)
| OStr (s : string)
| OList (items : list pyobj)
| ODict (entries : list (string * pyobj)).   (* keys are distinct *)

(** What the methods below can raise. *)
Inductive fault :=
| KeyError (key : string)
| TypeError
| JSONDecodeError
| OpenError.

(** [bool(v)] *)
Definition truthy (v : pyobj) : bool :=
  match v with
  | ONone => false
  | OBool b => b
  | OInt n => negb (n =? 0)%Z
  | OStr s => negb (String.eqb s "")
  | OList items => match items with [] => false | _ => true end
  | ODict entries => match entries with [] => false | _ => true end
  end.

(** [d[key]] for a dictionary. *)
Fixpoint dict_lookup (key : string) (entries : list (string * pyobj)) : option pyobj :=
  match entries with
  | [] => None
  | (k, v) :: rest => if String.eqb k key then Some v else dict_lookup key rest
  end.

(** [m[key]] with a string key: only a dictionary can be indexed so. *)
Definition getitem (m : pyobj) (key : string) : fault + pyobj :=
  match m with
  | ODict entries =>
      match dict_lookup key entries with
      | Some v => inr v
      | None => inl (KeyError key)
      end
  | _ => inl TypeError
  end.

(** [v == s] for a string [s]. *)
Definition eq_str (v : pyobj) (s : string) : bool :=
  match v with
  | OStr s' => String.eqb s' s
  | _ => false
  end.

(** [{"role": role, "content": content}] *)
Definition message (role : string) (content : pyobj) : pyobj :=
  ODict [("role", OStr role); ("content", content)].

(** ** The object [SuperChat] *)

Record SuperChat := {
  model : string;
  messages : list pyobj;
  system_prompt : string;
}.

Definition set_messages (ms : list pyobj) (sc : SuperChat) : SuperChat :=
  {| model := model sc; messages := ms; system_prompt := system_prompt sc |}.

(** [any(m["role"] == "system" for m in self.messages)]: the generator
    stops at the first system message, and an entry that cannot be indexed
    raises. *)
Fixpoint any_system (ms : list pyobj) : fault + bool :=
  match ms with
  | [] => inr false
  | m :: rest =>
      match getitem m "role" with
      | inl e => inl e
      | inr v => if eq_str v "system" then inr true else any_system rest
      end
  end.

(** Lines 142-144. The result is the exception, if any, and the object as
    the method leaves it. *)
Definition _ensure_system_message (sc : SuperChat) : option fault * SuperChat :=
  match any_system (messages sc) with
  | inl e => (Some e, sc)
  | inr true => (None, sc)
  | inr false =>
      (None, set_messages (message "system" (OStr (system_prompt sc)) :: messages sc) sc)
  end.

(** Lines 146-150. *)
Definition add_user_message (text : pyobj) (sc : SuperChat) : SuperChat :=
  set_messages (messages sc ++ [message "user" text]) sc.

Definition add_assistant_message (text : pyobj) (sc : SuperChat) : SuperChat :=
  set_messages (messages sc ++ [message "assistant" text]) sc.

Definition default_system_prompt : string :=
  "You are a helpful, concise, and safe AI assistant. When the user asks to run python code, " +:+
  "wrap the code with triple backticks and mark it with the language. Provide explanations when needed. " +:+
  "If asked for potentially dangerous content, refuse and provide alternatives.".

(** Lines 130-140: [SuperChat(model, system_prompt)]. *)
Definition __init__ (model_name : string) (prompt : option string)
  : option fault * SuperChat :=
  _ensure_system_message
    {| model := model_name; messages := [];
       system_prompt := default default_system_prompt prompt |}.

(** ** Conversation files *)

(** A file holds a JSON document, or text that [json.load] rejects. *)
Inductive document :=
| Json (v : pyobj)
| Garbage.

(** One [print] call: the object printed and the [end] argument. *)
Inductive printed := Print (x : pyobj) (ending : string).

Definition newline : string := String (Ascii.ascii_of_nat 10) EmptyString.

Record Disk := {
  store : gmap string document;
  writable : string → bool;        (* [open(path, "w")] succeeds *)
  screen : list printed;
}.

Definition isinstance_list (v : pyobj) : bool :=
  match v with OList _ => true | _ => false end.

(** Lines 58-65. *)
Definition load_conversation (filename : string) (d : Disk) : fault + list pyobj :=
  match store d !! filename with
  | Some Garbage => inl JSONDecodeError
  | Some (Json (OList data)) => inr data
  | Some (Json _) => inr []
  | None => inr []
  end.

(** Lines 51-55. *)
Definition save_conversation (msgs : list pyobj) (filename : string) (d : Disk)
  : option fault * Disk :=
  if writable d filename then
    (None,
     {| store := <[filename := Json (OList msgs)]> (store d);
        writable := writable d;
        screen := screen d ++
          [Print (OStr ("[saved] conversation to " +:+ filename)) newline] |})
  else (Some OpenError, d).

(** Lines 152-153. *)
Definition save (filename : string) (sc : SuperChat) (d : Disk) : option fault * Disk :=
  save_conversation (messages sc) filename d.

(** Lines 155-157. *)
Definition load (filename : string) (sc : SuperChat) (d : Disk)
  : option fault * SuperChat :=
  match load_conversation filename d with
  | inl e => (Some e, sc)
  | inr data => _ensure_system_message (set_messages data sc)
  end.

(** ** The language-model service *)

(** The keyword arguments of [openai.ChatCompletion.create]. The
    temperature is kept as it is written in the source. *)
Record request := {
  req_model : string;
  req_messages : list pyobj;
  req_stream : bool;
  req_temperature : string;
  req_max_tokens : Z;
}.

(** One chunk of a streamed answer, seen through the two ways the code
    reads it: [chunk.choices[0].delta.get("content", "")] and
    [chunk["choices"][0]["delta"].get("content", "")]. [None] stands for an
    access that raises. *)
Record chunk := {
  by_attribute : option pyobj;
  by_item : option pyobj;
}.

(** The module [openai]. A string on the left is [str(e)] of the exception
    the operation raises. A stream is its chunks and, possibly, the
    exception that ends it. *)
Record Api := {
  hasattr_create : string + bool;
  create_stream : request → string + (list chunk * option string);
  create_content : request → string + pyobj;
}.

(** Lines 191-200: the piece of text of one chunk. *)
Definition content_piece (c : chunk) : pyobj :=
  match by_attribute c with
  | Some v => v
  | None =>
      match by_item c with
      | Some v => v
      | None => OStr ""
      end
  end.

Definition type_name (v : pyobj) : string :=
  match v with
  | ONone => "NoneType"
  | OBool _ => "bool"
  | OInt _ => "int"
  | OStr _ => "str"
  | OList _ => "list"
  | ODict _ => "dict"
  end.

Definition double_quote : string := String (Ascii.ascii_of_nat 34) EmptyString.

(** [str(e)] for the [TypeError] of [response_text += v]. *)
Definition cannot_concatenate (v : pyobj) : string :=
  "can only concatenate str (not " +:+ double_quote +:+ type_name v +:+
  double_quote +:+ ") to str".

(** Lines 188-203: the loop over the stream. The result is [str(e)] of the
    exception that leaves the loop, or the text gathered. *)
Fixpoint consume (chunks : list chunk) (broken : option string)
    (response_text : string) (scr : list printed)
  : (string + string) * list printed :=
  match chunks with
  | [] =>
      match broken with
      | Some e => (inl e, scr)
      | None => (inr response_text, scr)
      end
  | c :: rest =>
      let piece := content_piece c in
      if truthy piece then
        let scr := (scr ++ [Print piece ""])%list in
        match piece with
        | OStr s => consume rest broken (response_text +:+ s) scr
        | _ => (inl (cannot_concatenate piece), scr)
        end
      else consume rest broken response_text scr
  end.

Definition toy_response : string :=
  "[toy assistant response] (no openai package installed)".

(** Lines 218-221: the [except Exception as e] clause. *)
Definition api_error (str_e : string) (sc : SuperChat) (scr : list printed)
  : pyobj * SuperChat * list printed :=
  let err := OStr ("[API error] " +:+ str_e) in
  (err, add_assistant_message err sc, scr).

(** Lines 180-186 and 209-214: the two calls of
    [openai.ChatCompletion.create]. *)
Definition stream_request (sc : SuperChat) : request :=
  {| req_model := model sc; req_messages := messages sc;
     req_stream := true; req_temperature := "0.2"; req_max_tokens := 800 |}.

Definition plain_request (sc : SuperChat) : request :=
  {| req_model := model sc; req_messages := messages sc;
     req_stream := false; req_temperature := "0.2"; req_max_tokens := 1000 |}.

(** Lines 159-221: [self.ask(prompt, stream)]. The result is the value
    returned, the object and the screen. *)
Definition ask (openai : option Api) (prompt : string) (stream : bool)
    (sc : SuperChat) (scr : list printed) : pyobj * SuperChat * list printed :=
  let sc := add_user_message (OStr prompt) sc in
  match openai with
  | None =>
      (OStr toy_response, add_assistant_message (OStr toy_response) sc, scr)
  | Some api =>
      let streaming :=
        if stream then hasattr_create api else inr false in
      match streaming with
      | inl e => api_error e sc scr
      | inr true =>
          let scr := (scr ++ [Print (OStr "[streaming response] ") ""])%list in
          match create_stream api (stream_request sc) with
          | inl e => api_error e sc scr
          | inr (chunks, broken) =>
              match consume chunks broken "" scr with
              | (inl e, scr) => api_error e sc scr
              | (inr response_text, scr) =>
                  (OStr response_text,
                   add_assistant_message (OStr response_text) sc,
                   (scr ++ [Print (OStr "") newline])%list)
              end
          end
      | inr false =>
          match create_content api (plain_request sc) with
          | inl e => api_error e sc scr
          | inr assistant_text =>
              (assistant_text, add_assistant_message assistant_text sc, scr)
          end
      end
  end.

(** ** Notions used in the statements *)

(** A piece the loop can take: a string, or a value that counts as
    false. *)
Definition harmless (v : pyobj) : bool :=
  match v with
  | OStr _ => true
  | _ => negb (truthy v)
  end.

(** The non-empty strings among the pieces of a stream, in order. *)
Fixpoint shown (chunks : list chunk) : list string :=
  match chunks with
  | [] => []
  | c :: rest =>
      match content_piece c with
      | OStr s => if String.eqb s "" then shown rest else s :: shown rest
      | _ => shown rest
      end
  end.

Definition joined (pieces : list string) : string :=
  foldr String.append "" pieces.

Definition system_message (sc : SuperChat) : pyobj :=
  message "system" (OStr (system_prompt sc)).

(** ** Examples *)

Definition alice : SuperChat :=
  {| model := "gpt";
     messages := [message "system" (OStr "be brief");
                  message "user" (OStr "hello");
                  message "assistant" (OStr "hi")];
     system_prompt := "be brief" |}.

Definition bob : SuperChat :=
  {| model := "gpt"; messages := []; system_prompt := "be kind" |}.

Definition empty_disk : Disk :=
  {| store := ∅; writable := λ _, true; screen := [] |}.

(** A disk whose conversation file has an entry without "role". *)
Definition broken_disk : Disk :=
  {| store := {[ "chat.json" := Json (OList [ODict [("content", OStr "hi")]]) ]};
     writable := λ _, true; screen := [] |}.

(** A service that streams "He", nothing, "llo", and a chunk that cannot be
    read; its plain call fails. *)
Definition streaming_api : Api :=
  {| hasattr_create := inr true;
     create_stream := λ _,
       inr ([ {| by_attribute := Some (OStr "He"); by_item := None |};
              {| by_attribute := Some ONone; by_item := None |};
              {| by_attribute := None; by_item := Some (OStr "llo") |};
              {| by_attribute := None; by_item := None |} ], None);
     create_content := λ _, inl "connection refused" |}.

End Chat.

(** * The query client of filtering.py *)

Module Sparql.

(** [needle in hay] for two strings. *)
Fixpoint py_in (needle hay : string) : bool :=
  String.prefix needle hay ||
  match hay with
  | EmptyString => false
  | String _ rest => py_in needle rest
  end.

(** What [sparql.setQuery(query); sparql.query().convert()] can raise,
    with [str(e)]: an [HTTPError], or another [Exception]. *)
Inductive raised :=
| HTTPError (str_e : string)
| OtherError (str_e : string).

Section Retry.

(** Python floats and the product of a float by an int are parameters:
    nothing below depends on how floats round. [R] is the type of the
    converted results. *)
Variable F : Type.
Variable times : F → Z → F.
Variable R : Type.

(** The [print] calls of the function, each with the values it formats. *)
Inductive said :=
| SaidUnavailable
| SaidRateLimited (attempt_no : Z) (wait_time : F)
| SaidHTTPError (attempt_no : Z) (str_e : string)
| SaidUnexpected (attempt_no : Z) (str_e : string)
| SaidMaxRetries (max_retries : Z)
| SaidSyntaxError (str_e : string)
| SaidQueryThatFailed
| SaidQuery (query : string).

(** What the function does, oldest first. *)
Inductive event :=
| Query (text : string)
| Say (what : said)
| Sleep (seconds : F).

(** The number of queries sent. *)
Fixpoint queries (evs : list event) : nat :=
  match evs with
  | [] => 0
  | Query _ :: rest => S (queries rest)
  | _ :: rest => queries rest
  end.

Fixpoint sleeps (evs : list event) : list F :=
  match evs with
  | [] => []
  | Sleep s :: rest => s :: sleeps rest
  | _ :: rest => sleeps rest
  end.

(** Line 90: the test for a syntax error. *)
Definition is_syntax_error (error_msg : string) : bool :=
  py_in "QueryBadFormed" error_msg || py_in "badly formed" error_msg.

(** Line 78: the test for rate limiting. *)
Definition is_rate_limited (str_e : string) : bool := py_in "429" str_e.

Definition and_then (evs : list event) (rest : option R * list event)
  : option R * list event :=
  (fst rest, (evs ++ snd rest)%list).

(** Lines 71-105: the loop [for attempt in range(max_retries)], from
    [attempt] on, with [fuel] iterations left, and the [return None] that
    follows it. [respond k] is the outcome of the query of attempt [k]. *)
Fixpoint attempts (respond : nat → raised + R) (query : string)
    (max_retries : Z) (delay : F) (fuel attempt : nat) : option R * list event :=
  match fuel with
  | O => (None, [])
  | S fuel' =>
      let number := (Z.of_nat attempt + 1)%Z in
      let last_one := negb (Z.of_nat attempt <? max_retries - 1)%Z in
      let next := attempts respond query max_retries delay fuel' (S attempt) in
      match respond attempt with
      | inr results => (Some results, [Query query])
      | inl (HTTPError e) =>
          if is_rate_limited e then
            let wait_time := times delay (2 ^ Z.of_nat attempt)%Z in
            and_then [Query query; Say (SaidRateLimited number wait_time);
                      Sleep wait_time] next
          else if last_one then
            (None, [Query query; Say (SaidHTTPError number e);
                    Say (SaidMaxRetries max_retries)])
          else
            and_then [Query query; Say (SaidHTTPError number e);
                      Sleep (times delay number)] next
      | inl (OtherError error_msg) =>
          if is_syntax_error error_msg then
            (None, [Query query; Say (SaidSyntaxError error_msg);
                    Say SaidQueryThatFailed; Say (SaidQuery query)])
          else if last_one then
            (None, [Query query; Say (SaidUnexpected number error_msg);
                    Say (SaidMaxRetries max_retries)])
          else
            and_then [Query query; Say (SaidUnexpected number error_msg);
                      Sleep (times delay number)] next
      end
  end.

(** Lines 49-105. [available] says that the import of [sparql] worked. *)
Definition execute_sparql_with_retry (available : bool)
    (respond : nat → raised + R) (query : string) (max_retries : Z) (delay : F)
  : option R * list event :=
  if available then attempts respond query max_retries delay (Z.to_nat max_retries) 0
  else (None, [Say SaidUnavailable]).

(** A failure after which the loop goes on, when attempts are left. *)
Definition retried (f : raised) : bool :=
  match f with
  | HTTPError _ => true
  | OtherError error_msg => negb (is_syntax_error error_msg)
  end.

(** A failure that is retried and is not a rate limit. *)
Definition plain_failure (f : raised) : bool :=
  match f with
  | HTTPError e => negb (is_rate_limited e)
  | OtherError error_msg => negb (is_syntax_error error_msg)
  end.

End Retry.

Arguments Query {F} text.
Arguments Say {F} what.
Arguments Sleep {F} seconds.
Arguments SaidUnavailable {F}.
Arguments SaidRateLimited {F} attempt_no wait_time.
Arguments SaidHTTPError {F} attempt_no str_e.
Arguments SaidUnexpected {F} attempt_no str_e.
Arguments SaidMaxRetries {F} max_retries.
Arguments SaidSyntaxError {F} str_e.
Arguments SaidQueryThatFailed {F}.
Arguments SaidQuery {F} query.
Arguments queries {F} evs.
Arguments sleeps {F} evs.
Arguments attempts {F} times {R} respond query max_retries delay fuel attempt.
Arguments execute_sparql_with_retry {F} times {R} available respond query max_retries delay.

End Sparql.

(** * The result processing of filtering.py *)

Module Filtering.
Import Chat.

Inductive failure :=
| AttributeError
| TypeError
| ValueError.

(** One processed result: [{"qids": qids, "count": count}]. *)
Record entry := {
  qids : list string;
  count : Z;
}.

(** [x.get(key, default)]: only a dictionary has the method. *)
Definition py_get (x : pyobj) (key : string) (dflt : pyobj) : failure + pyobj :=
  match x with
  | ODict entries => inr (default dflt (dict_lookup key entries))
  | _ => inl AttributeError
  end.

(** The elements [for x in v] goes through. *)
Definition iterate (v : pyobj) : failure + list pyobj :=
  match v with
  | OList items => inr items
  | ODict entries => inr (map (λ kv, OStr (fst kv)) entries)
  | OStr s => inr (map (λ ch, OStr (String ch "")) (String.list_ascii_of_string s))
  | _ => inl TypeError
  end.

Definition bar : ascii := "|"%char.

(** [s.split(sep)] for a separator of one character. *)
Fixpoint split_on (sep : ascii) (s : string) : list string :=
  match s with
  | EmptyString => [""]
  | String ch rest =>
      if Ascii.eqb ch sep then "" :: split_on sep rest
      else
        match split_on sep rest with
        | [] => [String ch ""]
        | piece :: more => String ch piece :: more
        end
  end.

Definition has_no_bar (piece : string) : Prop :=
  bar ∉ String.list_ascii_of_string piece.

Section Processing.

(** [str.strip] and the reading of a string by [int] are parameters. *)
Variable strip : string → string.
Variable int_of_str : string → option Z.

(** What every identifier of a result is: not empty, and the stripped
    form of a piece without a bar. *)
Definition good_qid (q : string) : Prop :=
  q ≠ "" ∧ ∃ piece, q = strip piece ∧ has_no_bar piece.

(** [int(v)] *)
Definition py_int (v : pyobj) : failure + Z :=
  match v with
  | OStr s =>
      match int_of_str s with
      | Some n => inr n
      | None => inl ValueError
      end
  | OInt n => inr n
  | OBool b => inr (if b then 1 else 0)%Z
  | _ => inl TypeError
  end.

(** Line 163: [[qid.strip() for qid in combo_qids.split("|") if qid.strip()]] *)
Definition qid_list (combo_qids : string) : list string :=
  flat_map (λ qid, if String.eqb (strip qid) "" then [] else [strip qid])
    (split_on bar combo_qids).

Definition next {A B} (x : failure + A) (k : A → failure + B) : failure + B :=
  match x with
  | inl e => inl e
  | inr a => k a
  end.

(** Lines 159-167: the body of the loop; [None] when nothing is
    appended. *)
Definition one_binding (binding : pyobj) : failure + option entry :=
  next (py_get binding "comboQIDs" (ODict [])) (λ c,
  next (py_get c "value" (OStr "")) (λ combo_qids,
  next (py_get binding "formsWithThisCombo" (ODict [])) (λ f,
  next (py_get f "value" (OStr "0")) (λ form_count,
  if truthy combo_qids then
    match combo_qids with
    | OStr s =>
        next (py_int form_count) (λ n,
        inr (Some {| qids := qid_list s; count := n |}))
    | _ => inl AttributeError
    end
  else inr None)))).

(** Lines 158-167: the loop. *)
Fixpoint process (bindings : list pyobj) : failure + list entry :=
  match bindings with
  | [] => inr []
  | binding :: rest =>
      next (one_binding binding) (λ appended,
      next (process rest) (λ more,
      inr (match appended with
           | Some e => e :: more
           | None => more
           end)))
  end.

(** Lines 152-169 of [filtering], from the value that
    [execute_sparql_with_retry] returned. *)
Definition process_results (results : option pyobj) : failure + option (list entry) :=
  match results with
  | None => inr None
  | Some r =>
      next (py_get r "results" (ODict [])) (λ res,
      next (py_get res "bindings" (OList [])) (λ bindings,
      next (iterate bindings) (λ bs,
      next (process bs) (λ processed, inr (Some processed)))))
  end.

End Processing.

(** Lines 234-239 of [process_all_languages_and_types], the same as lines
    334-339 of [process_limited_subset]:
    [sorted(list(unique_qid_forms))]. Python orders strings by code point,
    which for text in UTF-8 is the order of the bytes, [String.le]. *)
Definition unique_qid_forms (results : list entry) : list string :=
  merge_sort String.le
    (elements (list_to_set (concat (map qids results)) : gset string)).

(** The value with which a binding answers [binding[key]["value"]]. *)
Definition bound (key value : string) : string * pyobj :=
  (key, ODict [("type", OStr "literal"); ("value", OStr value)]).

(** ** Examples *)

Definition response : pyobj :=
  ODict [("head", ODict []);
         ("results", ODict [("bindings", OList [
            ODict [bound "comboQIDs" "Q110786|Q131105";
                   bound "formsWithThisCombo" "7"];
            ODict [bound "formsWithThisCombo" "7"];
            ODict [bound "comboQIDs" "Q146786||"; bound "formsWithThisCombo" "7"]
          ])])].

Definition reads_seven (s : string) : option Z :=
  if String.eqb s "7" then Some 7%Z else None.

(** Two bindings, the second with a count that is not a number. *)
Definition half_bad : list pyobj :=
  [ODict [bound "comboQIDs" "Q110786"; bound "formsWithThisCombo" "7"];
   ODict [bound "comboQIDs" "Q131105"; bound "formsWithThisCombo" "many"]].

End Filtering.

(** ** Endpoints used in the examples *)

Module Endpoints.

Definition too_many : Sparql.raised :=
  Sparql.HTTPError "HTTP Error 429: Too Many Requests".

Definition unavailable : Sparql.raised :=
  Sparql.HTTPError "HTTP Error 503: Service Unavailable".

Definition bad_query : string :=
  "QueryBadFormed: a bad request has been sent to the endpoint".

(** Rate limited, then a time-out, then an answer. *)
Definition flaky (k : nat) : Sparql.raised + string :=
  match k with
  | 0 => inl too_many
  | 1 => inl (Sparql.OtherError "timed out")
  | _ => inr "bindings"
  end.

(** A server error, then the rejection of the query. *)
Definition rejecting (k : nat) : Sparql.raised + string :=
  match k with
  | 0 => inl unavailable
  | _ => inl (Sparql.OtherError bad_query)
  end.

Definition throttled (k : nat) : Sparql.raised + string := inl too_many.

Definition down (k : nat) : Sparql.raised + string := inl unavailable.

End Endpoints.

(** * Properties of the executor *)

(** ** The steps of [run_python_sandbox], one lemma each *)

Section Steps.
Variable env : Env.

Ltac project :=
  cbv [world proc on_world record_call set_files set_children set_status
       files children next_pid self console history status does ctx
       stdout_to stderr_to text_mode rlimits execve python_cmd last from_option id
       staged cleaned spawned with_child popen_call failed_popen].

Lemma choose_preexec_fn_total m :
  choose_preexec_fn env m = (Return (preexec_of env), m).
Proof.
  unfold choose_preexec_fn, try_except, import_resource, preexec_of.
  unfold mbind, Eff_bind, mret, Eff_ret.
  destruct (has_resource env); reflexivity.
Qed.

Lemma is_Some_preexec_of :
  bool_decide (is_Some (preexec_of env)) = has_resource env.
Proof.
  unfold preexec_of. destruct (has_resource env); [|reflexivity].
  apply bool_decide_eq_true. eexists; reflexivity.
Qed.

Lemma with_block code m path :
  mkstemp_inner env ".py" (files (world m)) (tmp_random env) = Some path →
  disk_full env = false →
  (tf ← NamedTemporaryFile env ".py"; tf_write env tf code;; assign_proc None;; mret tf) m
  = (Return path, staged path code m).
Proof.
  destruct m as [[fs cs np sf con hist] pr]. project. intros Hmk Hdisk.
  unfold mbind, Eff_bind, NamedTemporaryFile, tf_write, assign_proc, modify.
  project. rewrite Hmk, Hdisk. project.
  unfold mret, Eff_ret. rewrite insert_insert_eq, <- app_assoc. reflexivity.
Qed.

Lemma finally_suite_total path m :
  finally_suite env path m = (Return tt, cleaned env path m).
Proof.
  destruct m as [[fs cs np sf con hist] pr].
  unfold finally_suite, try_except, os_remove. project.
  destruct (fs !! path) as [x|] eqn:Hx.
  - destruct (remove_denied env); reflexivity.
  - rewrite (delete_id _ _ Hx). destruct (remove_denied env); reflexivity.
Qed.

Lemma run_python_sandbox_staged code timeout m path :
  mkstemp_inner env ".py" (files (world m)) (tmp_random env) = Some path →
  disk_full env = false →
  run_python_sandbox env code timeout m
  = try_finally (try_suite env path timeout) (finally_suite env path)
      (staged path code m).
Proof.
  intros Hmk Hdisk. pose proof (with_block code m path Hmk Hdisk) as Hw.
  revert Hw. unfold run_python_sandbox, mbind, Eff_bind.
  destruct (NamedTemporaryFile env ".py" m) as [[tf|e] m1]; [|discriminate].
  destruct (tf_write env tf code m1) as [[[]|e] m2]; [|discriminate].
  destruct (assign_proc None m2) as [[[]|e] m3]; [|discriminate].
  unfold mret, Eff_ret. intros [= -> ->]. reflexivity.
Qed.

(** The exec of a missing or forbidden program reports one of two errors. *)
Lemma execve_first_error cands saved e :
  execve_first env cands saved = inl e →
  saved = None ∨ saved = Some PermissionError →
  e = FileNotFoundError ∨ e = PermissionError.
Proof.
  revert saved. induction cands as [|c rest IH]; intros saved; simpl.
  - intros [= <-] [->| ->]; simpl; auto.
  - destruct (programs env !! c) as [[]|]; [discriminate| |].
    + intros H Hs. apply (IH _ H). right.
      destruct Hs as [->| ->]; reflexivity.
    + intros H Hs. apply (IH _ H Hs).
Qed.

Lemma resolve_error args e :
  resolve env args = inl e → e = FileNotFoundError ∨ e = PermissionError.
Proof. intros H. apply (execve_first_error _ _ _ H). left; reflexivity. Qed.

Lemma try_suite_preexec_fails path code timeout m e c :
  files (world m) !! path = Some code →
  run_preexec (preexec_of env) (fork (self (world m))) = (Raise e, c) →
  try_suite env path timeout m = (Raise SubprocessError, failed_popen env path m).
Proof.
  destruct m as [[fs cs n sf con hist] pr]. project.
  intros Hfile Hpre.
  unfold try_suite, try_except, mbind, Eff_bind.
  rewrite choose_preexec_fn_total. unfold Popen. project.
  rewrite Hpre, is_Some_preexec_of. reflexivity.
Qed.

Lemma try_suite_exec_fails path code timeout m c e :
  files (world m) !! path = Some code →
  run_preexec (preexec_of env) (fork (self (world m))) = (Return tt, c) →
  resolve env (python_cmd env path) = inl e →
  try_suite env path timeout m = (Raise e, failed_popen env path m).
Proof.
  destruct m as [[fs cs n sf con hist] pr]. project.
  intros Hfile Hpre Hres.
  unfold try_suite, try_except, mbind, Eff_bind.
  rewrite choose_preexec_fn_total. unfold Popen. project.
  rewrite Hpre. rewrite Hres, is_Some_preexec_of.
  destruct (resolve_error _ _ Hres) as [->| ->]; reflexivity.
Qed.

Lemma try_suite_completed path code timeout m c prog out err :
  files (world m) !! path = Some code →
  run_preexec (preexec_of env) (fork (self (world m))) = (Return tt, c) →
  resolve env (python_cmd env path) = inr prog →
  let b := interpreter env (python_cmd env path) (Some code) (rlimits c) in
  finishes timeout b = true →
  decoded env b = Some (out, err) →
  try_suite env path timeout m
  = (Return (completed_dict (PyInt (exit_status b)) (PyStr out) (PyStr err)),
     with_child [popen_call env path; CallCommunicate (next_pid (world m)) timeout]
       (spawned env path code prog c (Reaped (exit_status b))) m).
Proof.
  destruct m as [[fs cs n sf con hist] pr]. project.
  intros Hfile Hpre Hres Hfin Hdec. unfold finishes in Hfin.
  unfold decoded in Hdec.
  destruct (decode env (piped Out PIPE _)) as [o|] eqn:Ho; [|discriminate].
  destruct (decode env (piped Err PIPE _)) as [e|] eqn:He; [|discriminate].
  injection Hdec as <- <-.
  unfold try_suite, try_except, mbind, Eff_bind.
  rewrite choose_preexec_fn_total. unfold Popen. project.
  rewrite Hpre. rewrite Hres, is_Some_preexec_of.
  rewrite Hfile. unfold assign_proc, modify, communicate. project.
  rewrite lookup_insert_eq. project. rewrite Hfin.
  unfold both_captured, captured. project. rewrite Ho, He.
  unfold returncode. project. rewrite lookup_insert_eq. project.
  rewrite insert_insert_eq, <- app_assoc. reflexivity.
Qed.

Lemma try_suite_undecodable path code timeout m c prog :
  files (world m) !! path = Some code →
  run_preexec (preexec_of env) (fork (self (world m))) = (Return tt, c) →
  resolve env (python_cmd env path) = inr prog →
  let b := interpreter env (python_cmd env path) (Some code) (rlimits c) in
  finishes timeout b = true →
  decoded env b = None →
  try_suite env path timeout m
  = (Raise UnicodeDecodeError,
     with_child [popen_call env path; CallCommunicate (next_pid (world m)) timeout]
       (spawned env path code prog c (Reaped (exit_status b))) m).
Proof.
  destruct m as [[fs cs n sf con hist] pr]. project.
  intros Hfile Hpre Hres Hfin Hdec. unfold finishes in Hfin.
  unfold try_suite, try_except, mbind, Eff_bind.
  rewrite choose_preexec_fn_total. unfold Popen. project.
  rewrite Hpre. rewrite Hres, is_Some_preexec_of.
  rewrite Hfile. unfold assign_proc, modify, communicate. project.
  rewrite lookup_insert_eq. project. rewrite Hfin.
  unfold decoded in Hdec. unfold both_captured, captured. project.
  destruct (decode env (piped Out PIPE _)) as [o|] eqn:Ho.
  - destruct (decode env (piped Err PIPE _)) as [e|] eqn:He; [discriminate|].
    unfold isinstance_TimeoutExpired.
    rewrite insert_insert_eq, <- app_assoc. reflexivity.
  - unfold isinstance_TimeoutExpired.
    rewrite insert_insert_eq, <- app_assoc. reflexivity.
Qed.

Lemma try_suite_timeout path code timeout m c prog :
  files (world m) !! path = Some code →
  run_preexec (preexec_of env) (fork (self (world m))) = (Return tt, c) →
  resolve env (python_cmd env path) = inr prog →
  let b := interpreter env (python_cmd env path) (Some code) (rlimits c) in
  finishes timeout b = false →
  try_suite env path timeout m
  = (Return timeout_dict,
     with_child [popen_call env path; CallCommunicate (next_pid (world m)) timeout;
                 CallKill (next_pid (world m))]
       (spawned env path code prog c (after_kill timeout b)) m).
Proof.
  destruct m as [[fs cs n sf con hist] pr]. project.
  intros Hfile Hpre Hres Hfin. unfold finishes in Hfin. unfold after_kill.
  unfold try_suite, try_except, mbind, Eff_bind.
  rewrite choose_preexec_fn_total. unfold Popen. project.
  rewrite Hpre. rewrite Hres, is_Some_preexec_of.
  rewrite Hfile. unfold assign_proc, modify, communicate. project.
  rewrite lookup_insert_eq. project. rewrite Hfin.
  unfold isinstance_TimeoutExpired, get, kill. project.
  rewrite lookup_insert_eq.
  destruct (exits_within timeout _); project;
    rewrite !insert_insert_eq, <- !app_assoc; reflexivity.
Qed.

(** *** The ways through the [try] statement, from call to return *)

Lemma staged_file path code m :
  files (world (staged path code m)) !! path = Some code.
Proof. apply lookup_insert_eq. Qed.

Lemma run_preexec_fails code timeout m path e c :
  mkstemp_inner env ".py" (files (world m)) (tmp_random env) = Some path →
  disk_full env = false →
  run_preexec (preexec_of env) (fork (self (world m))) = (Raise e, c) →
  run_python_sandbox env code timeout m
  = (Raise SubprocessError,
     cleaned env path (failed_popen env path (staged path code m))).
Proof.
  intros Hmk Hdisk Hpre.
  rewrite (run_python_sandbox_staged _ _ _ _ Hmk Hdisk). unfold try_finally.
  rewrite (try_suite_preexec_fails path code timeout _ e c (staged_file _ _ _) Hpre).
  rewrite finally_suite_total. reflexivity.
Qed.

Lemma run_exec_fails code timeout m path c e :
  mkstemp_inner env ".py" (files (world m)) (tmp_random env) = Some path →
  disk_full env = false →
  run_preexec (preexec_of env) (fork (self (world m))) = (Return tt, c) →
  resolve env (python_cmd env path) = inl e →
  run_python_sandbox env code timeout m
  = (Raise e, cleaned env path (failed_popen env path (staged path code m))).
Proof.
  intros Hmk Hdisk Hpre Hres.
  rewrite (run_python_sandbox_staged _ _ _ _ Hmk Hdisk). unfold try_finally.
  rewrite (try_suite_exec_fails path code timeout _ c e (staged_file _ _ _) Hpre Hres).
  rewrite finally_suite_total. reflexivity.
Qed.

Lemma run_completed code timeout m path c prog out err :
  mkstemp_inner env ".py" (files (world m)) (tmp_random env) = Some path →
  disk_full env = false →
  run_preexec (preexec_of env) (fork (self (world m))) = (Return tt, c) →
  resolve env (python_cmd env path) = inr prog →
  let b := interpreter env (python_cmd env path) (Some code) (rlimits c) in
  finishes timeout b = true →
  decoded env b = Some (out, err) →
  run_python_sandbox env code timeout m
  = (Return (completed_dict (PyInt (exit_status b)) (PyStr out) (PyStr err)),
     cleaned env path
       (with_child [popen_call env path; CallCommunicate (next_pid (world m)) timeout]
          (spawned env path code prog c (Reaped (exit_status b)))
          (staged path code m))).
Proof.
  intros Hmk Hdisk Hpre Hres b Hfin Hdec.
  rewrite (run_python_sandbox_staged _ _ _ _ Hmk Hdisk). unfold try_finally.
  rewrite (try_suite_completed path code timeout _ c prog out err
             (staged_file _ _ _) Hpre Hres Hfin Hdec).
  rewrite finally_suite_total. reflexivity.
Qed.

Lemma run_undecodable code timeout m path c prog :
  mkstemp_inner env ".py" (files (world m)) (tmp_random env) = Some path →
  disk_full env = false →
  run_preexec (preexec_of env) (fork (self (world m))) = (Return tt, c) →
  resolve env (python_cmd env path) = inr prog →
  let b := interpreter env (python_cmd env path) (Some code) (rlimits c) in
  finishes timeout b = true →
  decoded env b = None →
  run_python_sandbox env code timeout m
  = (Raise UnicodeDecodeError,
     cleaned env path
       (with_child [popen_call env path; CallCommunicate (next_pid (world m)) timeout]
          (spawned env path code prog c (Reaped (exit_status b)))
          (staged path code m))).
Proof.
  intros Hmk Hdisk Hpre Hres b Hfin Hdec.
  rewrite (run_python_sandbox_staged _ _ _ _ Hmk Hdisk). unfold try_finally.
  rewrite (try_suite_undecodable path code timeout _ c prog
             (staged_file _ _ _) Hpre Hres Hfin Hdec).
  rewrite finally_suite_total. reflexivity.
Qed.

Lemma run_timeout code timeout m path c prog :
  mkstemp_inner env ".py" (files (world m)) (tmp_random env) = Some path →
  disk_full env = false →
  run_preexec (preexec_of env) (fork (self (world m))) = (Return tt, c) →
  resolve env (python_cmd env path) = inr prog →
  let b := interpreter env (python_cmd env path) (Some code) (rlimits c) in
  finishes timeout b = false →
  run_python_sandbox env code timeout m
  = (Return timeout_dict,
     cleaned env path
       (with_child [popen_call env path; CallCommunicate (next_pid (world m)) timeout;
                    CallKill (next_pid (world m))]
          (spawned env path code prog c (after_kill timeout b))
          (staged path code m))).
Proof.
  intros Hmk Hdisk Hpre Hres b Hfin.
  rewrite (run_python_sandbox_staged _ _ _ _ Hmk Hdisk). unfold try_finally.
  rewrite (try_suite_timeout path code timeout _ c prog
             (staged_file _ _ _) Hpre Hres Hfin).
  rewrite finally_suite_total. reflexivity.
Qed.

(** Every way through the [try] statement once the child is spawned. *)
Lemma run_spawned code timeout m path c prog :
  mkstemp_inner env ".py" (files (world m)) (tmp_random env) = Some path →
  disk_full env = false →
  run_preexec (preexec_of env) (fork (self (world m))) = (Return tt, c) →
  resolve env (python_cmd env path) = inr prog →
  let b := interpreter env (python_cmd env path) (Some code) (rlimits c) in
  ∃ r calls st,
    run_python_sandbox env code timeout m
    = (r, cleaned env path
            (with_child (popen_call env path :: calls)
               (spawned env path code prog c st) (staged path code m)))
    ∧ ((finishes timeout b = true
        ∧ calls = [CallCommunicate (next_pid (world m)) timeout]
        ∧ st = Reaped (exit_status b)
        ∧ ((∃ out err, decoded env b = Some (out, err)
              ∧ r = Return (completed_dict (PyInt (exit_status b))
                              (PyStr out) (PyStr err)))
           ∨ (decoded env b = None ∧ r = Raise UnicodeDecodeError)))
       ∨ (finishes timeout b = false
          ∧ calls = [CallCommunicate (next_pid (world m)) timeout;
                     CallKill (next_pid (world m))]
          ∧ st = after_kill timeout b
          ∧ r = Return timeout_dict)).
Proof.
  intros Hmk Hdisk Hpre Hprog b.
  destruct (finishes timeout b) eqn:Hfin.
  - destruct (decoded env b) as [[out err]|] eqn:Hdec.
    + rewrite (run_completed code timeout m path c prog out err
                 Hmk Hdisk Hpre Hprog Hfin Hdec).
      do 3 eexists. split; [reflexivity|]. left. eauto 10.
    + rewrite (run_undecodable code timeout m path c prog
                 Hmk Hdisk Hpre Hprog Hfin Hdec).
      do 3 eexists. split; [reflexivity|]. left. eauto 10.
  - rewrite (run_timeout code timeout m path c prog Hmk Hdisk Hpre Hprog Hfin).
    do 3 eexists. split; [reflexivity|]. right. eauto 10.
Qed.

(** A child that does not end in time: [communicate] does not return, and
    the child gets the signal. *)
Lemma overrun_does_not_finish timeout b :
  exits_within timeout b = false →
  finishes timeout b = false ∧ after_kill timeout b = Signalled.
Proof. unfold finishes, after_kill. intros ->. split; reflexivity. Qed.

(** Before the [try] statement: no free name, or a failed write. *)
Lemma run_mkstemp_fails code timeout m :
  mkstemp_inner env ".py" (files (world m)) (tmp_random env) = None →
  run_python_sandbox env code timeout m = (Raise FileExistsError, m).
Proof.
  intros Hmk. unfold run_python_sandbox, mbind, Eff_bind, NamedTemporaryFile.
  rewrite Hmk. reflexivity.
Qed.

Lemma run_write_fails code timeout m path :
  mkstemp_inner env ".py" (files (world m)) (tmp_random env) = Some path →
  disk_full env = true →
  ∃ m', run_python_sandbox env code timeout m = (Raise OSError, m')
        ∧ files (world m') !! path = Some "".
Proof.
  intros Hmk Hdisk. unfold run_python_sandbox, mbind, Eff_bind, NamedTemporaryFile.
  rewrite Hmk. unfold tf_write. rewrite Hdisk. eexists; split; [reflexivity|].
  destruct m as [[fs cs n sf con hist] pr]. project. apply lookup_insert_eq.
Qed.

End Steps.

(** ** Resource limits *)

Section Limits.


Lemma rlim_leb_refl a : rlim_leb a a = true.
Proof. destruct a; simpl; [apply Z.leb_refl | reflexivity]. Qed.

Lemma bind_Return {S A B} (m : Eff S A) (f : A → Eff S B) s b s' :
  (m ≫= f) s = (Return b, s') →
  ∃ a s1, m s = (Return a, s1) ∧ f a s1 = (Return b, s').
Proof.
  unfold mbind, Eff_bind. destruct (m s) as [[a|e] s1]; [eauto | discriminate].
Qed.

Lemma setrlimit_Return r v p c :
  setrlimit r v p = (Return tt, c) →
  c = {| rlimits := setrlimit_of r v (rlimits p);
         privileged := privileged p;
         syscalls := syscalls p ++ [SysSetrlimit r (fst v) (snd v)] |}
  ∧ rlim_leb (fst v) (snd v) = true
  ∧ (privileged p = true
     ∨ rlim_leb (snd v) (snd (getrlimit_of r (rlimits p))) = true).
Proof.
  unfold setrlimit. destruct v as [soft hard]. cbn [fst snd].
  destruct (getrlimit_of r (rlimits p)) as [s0 h0]. cbn [snd].
  destruct (rlim_leb soft hard); [|discriminate].
  destruct (privileged p); cbn [negb andb].
  - intros [= <-]. repeat split. left; reflexivity.
  - destruct (rlim_leb hard h0); [|discriminate].
    intros [= <-]. repeat split. right; reflexivity.
Qed.

(** What a successful [_limit] has done to the calling process. *)
Lemma _limit_effect p c :
  _limit p = (Return tt, c) →
  rlimits c = {| lim_cpu := (Lim 2, Lim 2);
                 lim_as := (Lim 209715200, Lim 209715200) |}
  ∧ privileged c = privileged p
  ∧ syscalls c = (syscalls p ++
      [SysSetrlimit RLIMIT_CPU (Lim 2) (Lim 2);
       SysSetrlimit RLIMIT_AS (Lim 209715200) (Lim 209715200)])%list.
Proof.
  unfold _limit. intros H.
  apply bind_Return in H as ([] & p1 & H1 & H2).
  apply setrlimit_Return in H1 as (-> & _ & _).
  apply setrlimit_Return in H2 as (-> & _ & _).
  cbn [rlimits privileged syscalls setrlimit_of lim_cpu lim_as fst snd].
  rewrite <- app_assoc. auto.
Qed.

Lemma setrlimit_succeeds r v p :
  rlim_leb (fst v) (snd v) = true →
  rlim_leb (snd v) (snd (getrlimit_of r (rlimits p))) = true →
  setrlimit r v p
  = (Return tt,
     {| rlimits := setrlimit_of r v (rlimits p);
        privileged := privileged p;
        syscalls := syscalls p ++ [SysSetrlimit r (fst v) (snd v)] |}).
Proof.
  unfold setrlimit. destruct v as [soft hard]. cbn [fst snd].
  destruct (getrlimit_of r (rlimits p)) as [s0 h0]. cbn [snd].
  intros -> ->. cbn [negb]. rewrite andb_false_r. reflexivity.
Qed.

(** [_limit] succeeds when the caller's hard limits leave room for it. *)
Lemma _limit_succeeds p :
  rlim_leb (Lim 2) (snd (lim_cpu (rlimits p))) = true →
  rlim_leb (Lim 209715200) (snd (lim_as (rlimits p))) = true →
  ∃ c, _limit p = (Return tt, c).
Proof.
  intros Hcpu Has. unfold _limit, mbind, Eff_bind.
  rewrite setrlimit_succeeds; [|reflexivity|exact Hcpu].
  rewrite setrlimit_succeeds; [eauto|reflexivity|exact Has].
Qed.




End Limits.

(** * The claims of the specification *)

(** ** C10: soft limit equal to hard limit *)



(** ** C7: the limits are installed in the child, before the program *)

(** C7. When the [resource] module is there and the child is spawned, the
    child has called [setrlimit] for the CPU time, with 2 seconds, and for
    the address space, with 200 * 1024 * 1024 bytes, before it executed the
    interpreter; the limits of the calling process are what they were. *)
Theorem limits_installed_in_child_before_exec
    (env : Env) (code : string) (timeout : Z) (m : Machine)
    (path prog : string) (c : process) :
  has_resource env = true →
  mkstemp_inner env ".py" (files (world m)) (tmp_random env) = Some path →
  disk_full env = false →
  _limit (fork (self (world m))) = (Return tt, c) →
  resolve env (python_cmd env path) = inr prog →
  ∃ r m' ch,
    run_python_sandbox env code timeout m = (r, m')
    ∧ children (world m') !! next_pid (world m) = Some ch
    ∧ syscalls (ctx ch) =
        [SysSetrlimit RLIMIT_CPU (Lim 2) (Lim 2);
         SysSetrlimit RLIMIT_AS (Lim 209715200) (Lim 209715200);
         SysExecve prog (python_cmd env path)]
    ∧ rlimits (ctx ch) = {| lim_cpu := (Lim 2, Lim 2);
                            lim_as := (Lim 209715200, Lim 209715200) |}
    ∧ self (world m') = self (world m).
Proof.
  intros Hres Hmk Hdisk Hlim Hprog.
  assert (Hpre : run_preexec (preexec_of env) (fork (self (world m))) = (Return tt, c)).
  { unfold preexec_of. rewrite Hres. exact Hlim. }
  destruct (_limit_effect _ _ Hlim) as (Hl & _ & Hs). simpl in Hs.
  destruct (run_spawned env code timeout m path c prog Hmk Hdisk Hpre Hprog)
    as (r & calls & st & -> & _).
  do 3 eexists. split; [reflexivity|]. simpl.
  rewrite lookup_insert_eq. split; [reflexivity|]. simpl.
  rewrite Hs, Hl. auto.
Qed.

Lemma limits_installed_in_child_before_exec_witness :
  let env := Hosts.host true Hosts.python3 Hosts.says_hi in
  ∃ r m' ch,
    run_python_sandbox env "print('hi')" 4 Hosts.boot = (r, m')
    ∧ children (world m') !! next_pid (world Hosts.boot) = Some ch
    ∧ syscalls (ctx ch) =
        [SysSetrlimit RLIMIT_CPU (Lim 2) (Lim 2);
         SysSetrlimit RLIMIT_AS (Lim 209715200) (Lim 209715200);
         SysExecve "/usr/bin/python3" (python_cmd env "/tmp/tmpabc.py")]
    ∧ rlimits (ctx ch) = {| lim_cpu := (Lim 2, Lim 2);
                            lim_as := (Lim 209715200, Lim 209715200) |}
    ∧ self (world m') = self (world Hosts.boot).
Proof.
  apply (limits_installed_in_child_before_exec
           (Hosts.host true Hosts.python3 Hosts.says_hi) "print('hi')" 4
           Hosts.boot "/tmp/tmpabc.py" "/usr/bin/python3"
           (snd (_limit (fork Hosts.user_process))));
    vm_compute; reflexivity.
Defined.

(** ** C9: the interpreter of the child *)

Lemma resolve_direct (env : Env) (path prog : string) :
  contains_slash (sys_executable env) = true →
  resolve env (python_cmd env path) = inr prog →
  prog = sys_executable env.
Proof.
  intros Hslash. unfold resolve, executable_list, python_cmd. simpl.
  rewrite Hslash. simpl.
  destruct (programs env !! sys_executable env) as [[]|]; congruence.
Qed.

(** C9. The command line of the child starts with [sys.executable]; when
    that is a path (it has a directory part), the program the child executes
    is the file [sys.executable] itself and PATH plays no role. *)
Theorem child_runs_sys_executable
    (env : Env) (code : string) (timeout : Z) (m : Machine)
    (path prog : string) (c : process) :
  contains_slash (sys_executable env) = true →
  mkstemp_inner env ".py" (files (world m)) (tmp_random env) = Some path →
  disk_full env = false →
  run_preexec (preexec_of env) (fork (self (world m))) = (Return tt, c) →
  resolve env (python_cmd env path) = inr prog →
  ∃ r m' ch,
    run_python_sandbox env code timeout m = (r, m')
    ∧ children (world m') !! next_pid (world m) = Some ch
    ∧ last (syscalls (ctx ch))
      = Some (SysExecve (sys_executable env) [sys_executable env; "-I"; path])
    ∧ executable_list env (sys_executable env) = [sys_executable env].
Proof.
  intros Hslash Hmk Hdisk Hpre Hprog.
  pose proof (resolve_direct env path prog Hslash Hprog) as ->.
  assert (Hlist : executable_list env (sys_executable env) = [sys_executable env]).
  { unfold executable_list. rewrite Hslash. reflexivity. }
  destruct (run_spawned env code timeout m path c _ Hmk Hdisk Hpre Hprog)
    as (r & calls & st & -> & _).
  do 3 eexists. split; [reflexivity|]. simpl.
  rewrite lookup_insert_eq. split; [reflexivity|]. simpl.
  rewrite last_snoc. auto.
Qed.

Lemma child_runs_sys_executable_witness :
  let env := Hosts.host false Hosts.python3 Hosts.says_hi in
  ∃ r m' ch,
    run_python_sandbox env "print('hi')" 4 Hosts.boot = (r, m')
    ∧ children (world m') !! next_pid (world Hosts.boot) = Some ch
    ∧ last (syscalls (ctx ch))
      = Some (SysExecve "/usr/bin/python3" ["/usr/bin/python3"; "-I"; "/tmp/tmpabc.py"])
    ∧ executable_list env "/usr/bin/python3" = ["/usr/bin/python3"].
Proof.
  apply (child_runs_sys_executable
           (Hosts.host false Hosts.python3 Hosts.says_hi) "print('hi')" 4
           Hosts.boot "/tmp/tmpabc.py" "/usr/bin/python3"
           (fork Hosts.user_process));
    vm_compute; reflexivity.
Defined.

(** ** C6: the result of a child that exits in time *)








(** ** C5: the result of a child that runs past the deadline *)



(** ** C8: the two shapes of the result *)

(** Every call ends in one of three ways. *)
Lemma run_python_sandbox_cases
    (env : Env) (code : string) (timeout : Z) (m : Machine) :
  (∃ e m', run_python_sandbox env code timeout m = (Raise e, m'))
  ∨ (∃ rc out err m',
       run_python_sandbox env code timeout m
       = (Return (completed_dict (PyInt rc) (PyStr out) (PyStr err)), m'))
  ∨ (∃ m', run_python_sandbox env code timeout m = (Return timeout_dict, m')).
Proof.
  destruct (mkstemp_inner env ".py" (files (world m)) (tmp_random env))
    as [path|] eqn:Hmk.
  2:{ left. rewrite (run_mkstemp_fails env code timeout m Hmk). eauto. }
  destruct (disk_full env) eqn:Hdisk.
  { left. destruct (run_write_fails env code timeout m path Hmk Hdisk)
      as (m' & -> & _). eauto. }
  destruct (run_preexec (preexec_of env) (fork (self (world m))))
    as [[[]|e] c] eqn:Hpre.
  2:{ left. rewrite (run_preexec_fails env code timeout m path e c Hmk Hdisk Hpre).
      eauto. }
  destruct (resolve env (python_cmd env path)) as [e|prog] eqn:Hprog.
  { left. rewrite (run_exec_fails env code timeout m path c e Hmk Hdisk Hpre Hprog).
    eauto. }
  destruct (run_spawned env code timeout m path c prog Hmk Hdisk Hpre Hprog)
    as (r & calls & st & -> & [(_ & _ & _ & [(out & err & _ & ->) | (_ & ->)])
                              | (_ & _ & _ & ->)]).
  - right; left. eauto.
  - left. eauto.
  - right; right. eauto.
Qed.

(** C8. A call that returns, returns a dictionary of one of two shapes:
    the keys "returncode", "stdout" and "stderr", with no "error"; or the
    keys "error", "stdout" and "stderr", with "error" set to "timeout" and
    no "returncode". So exactly one of "returncode" and "error" is a key. *)
Theorem result_has_one_of_two_shapes
    (env : Env) (code : string) (timeout : Z) (m m' : Machine)
    (d : gmap string pyval) :
  run_python_sandbox env code timeout m = (Return d, m') →
  (dom d = {[ "returncode"; "stdout"; "stderr" ]}
   ∧ is_Some (d !! "returncode") ∧ d !! "error" = None)
  ∨ (dom d = {[ "error"; "stdout"; "stderr" ]}
     ∧ d !! "error" = Some (PyStr "timeout") ∧ d !! "returncode" = None).
Proof.
  intros Hrun.
  destruct (run_python_sandbox_cases env code timeout m)
    as [(e & m1 & H) | [(rc & out & err & m1 & H) | (m1 & H)]];
    rewrite H in Hrun; [discriminate| |]; injection Hrun as <- <-.
  - left. split; [|split].
    + unfold completed_dict. rewrite !dom_insert_L, dom_singleton_L. set_solver.
    + eexists; reflexivity.
    + reflexivity.
  - right. repeat split; reflexivity.
Qed.

Lemma result_has_one_of_two_shapes_witness :
  let r := run_python_sandbox (Hosts.host true Hosts.python3 Hosts.spins)
             "while True: pass" 1 Hosts.boot in
  let d := timeout_dict in
  r = (Return d, snd r)
  ∧ ((dom d = {[ "returncode"; "stdout"; "stderr" ]}
      ∧ is_Some (d !! "returncode") ∧ d !! "error" = None)
     ∨ (dom d = {[ "error"; "stdout"; "stderr" ]}
        ∧ d !! "error" = Some (PyStr "timeout") ∧ d !! "returncode" = None)).
Proof.
  split; [vm_compute; reflexivity|].
  apply (result_has_one_of_two_shapes
           (Hosts.host true Hosts.python3 Hosts.spins) "while True: pass" 1
           Hosts.boot
           (snd (run_python_sandbox (Hosts.host true Hosts.python3 Hosts.spins)
                   "while True: pass" 1 Hosts.boot))).
  vm_compute; reflexivity.
Defined.

(** ** C3: the temp file *)

Ltac no_remove :=
  unfold popen_call; rewrite !not_elem_of_cons;
  repeat split; try discriminate; apply not_elem_of_nil.

(** Once the temp file holds the code, every way out of the call goes
    through the [finally] suite, and what the caller gets does not depend on
    how the removal goes. *)
Lemma run_python_sandbox_through_finally
    (env : Env) (code : string) (timeout : Z) (m : Machine) (path : string) :
  mkstemp_inner env ".py" (files (world m)) (tmp_random env) = Some path →
  disk_full env = false →
  ∃ r mid calls,
    run_python_sandbox env code timeout m = (r, cleaned env path mid)
    ∧ history (world mid) = (history (world m) ++ calls)%list
    ∧ (CallRemove path ∉ calls)
    ∧ ∀ denied,
        fst (run_python_sandbox (with_remove_denied denied env) code timeout m) = r.
Proof.
  intros Hmk Hdisk.
  destruct (run_preexec (preexec_of env) (fork (self (world m))))
    as [[[]|e] c] eqn:Hpre;
    [destruct (resolve env (python_cmd env path)) as [e|prog] eqn:Hprog;
     [|destruct (finishes timeout
                   (interpreter env (python_cmd env path) (Some code) (rlimits c)))
         eqn:Hfin;
       [destruct (decoded env
                   (interpreter env (python_cmd env path) (Some code) (rlimits c)))
          as [[out err]|] eqn:Hdec|]]|].
  - rewrite (run_exec_fails env code timeout m path c e Hmk Hdisk Hpre Hprog).
    eexists _, _, [CallMkstemp path; CallWrite path; popen_call env path].
    split; [reflexivity|].
    split; [simpl; rewrite <- app_assoc; reflexivity|].
    split; [no_remove|]. intros denied.
    rewrite (run_exec_fails (with_remove_denied denied env) code timeout m path
               c e Hmk Hdisk Hpre Hprog).
    reflexivity.
  - rewrite (run_completed env code timeout m path c prog out err
               Hmk Hdisk Hpre Hprog Hfin Hdec).
    eexists _, _, [CallMkstemp path; CallWrite path; popen_call env path;
                   CallCommunicate (next_pid (world m)) timeout].
    split; [reflexivity|].
    split; [simpl; rewrite <- app_assoc; reflexivity|].
    split; [no_remove|]. intros denied.
    rewrite (run_completed (with_remove_denied denied env) code timeout m path
               c prog out err Hmk Hdisk Hpre Hprog Hfin Hdec).
    reflexivity.
  - rewrite (run_undecodable env code timeout m path c prog
               Hmk Hdisk Hpre Hprog Hfin Hdec).
    eexists _, _, [CallMkstemp path; CallWrite path; popen_call env path;
                   CallCommunicate (next_pid (world m)) timeout].
    split; [reflexivity|].
    split; [simpl; rewrite <- app_assoc; reflexivity|].
    split; [no_remove|]. intros denied.
    rewrite (run_undecodable (with_remove_denied denied env) code timeout m path
               c prog Hmk Hdisk Hpre Hprog Hfin Hdec).
    reflexivity.
  - rewrite (run_timeout env code timeout m path c prog Hmk Hdisk Hpre Hprog Hfin).
    eexists _, _, [CallMkstemp path; CallWrite path; popen_call env path;
                   CallCommunicate (next_pid (world m)) timeout;
                   CallKill (next_pid (world m))].
    split; [reflexivity|].
    split; [simpl; rewrite <- app_assoc; reflexivity|].
    split; [no_remove|]. intros denied.
    rewrite (run_timeout (with_remove_denied denied env) code timeout m path
               c prog Hmk Hdisk Hpre Hprog Hfin).
    reflexivity.
  - rewrite (run_preexec_fails env code timeout m path e c Hmk Hdisk Hpre).
    eexists _, _, [CallMkstemp path; CallWrite path; popen_call env path].
    split; [reflexivity|].
    split; [simpl; rewrite <- app_assoc; reflexivity|].
    split; [no_remove|]. intros denied.
    rewrite (run_preexec_fails (with_remove_denied denied env) code timeout m path
               e c Hmk Hdisk Hpre).
    reflexivity.
Qed.

(** C3. Once the temp file holds the code, whichever way the call ends
    (a result, a timeout, a failed spawn), it calls [os.remove] on the temp
    file exactly once, as the last thing it does. Unless the host refuses
    the removal, the file is gone when the call ends; and when the host
    does refuse, the caller gets the very same result or exception. *)
Theorem temp_file_removed_on_every_exit
    (env : Env) (code : string) (timeout : Z) (m : Machine) (path : string) :
  mkstemp_inner env ".py" (files (world m)) (tmp_random env) = Some path →
  disk_full env = false →
  ∃ r m' calls,
    run_python_sandbox env code timeout m = (r, m')
    ∧ history (world m') = (history (world m) ++ calls ++ [CallRemove path])%list
    ∧ (CallRemove path ∉ calls)
    ∧ (remove_denied env = false → files (world m') !! path = None)
    ∧ ∀ denied,
        fst (run_python_sandbox (with_remove_denied denied env) code timeout m) = r.
Proof.
  intros Hmk Hdisk.
  destruct (run_python_sandbox_through_finally env code timeout m path Hmk Hdisk)
    as (r & mid & calls & Hrun & Hhist & Hcalls & Hsame).
  exists r, (cleaned env path mid), calls. split; [exact Hrun|].
  split; [simpl; rewrite Hhist, <- app_assoc; reflexivity|].
  split; [exact Hcalls|]. split; [|exact Hsame].
  intros Hrm. simpl. rewrite Hrm. apply lookup_delete_eq.
Qed.

Lemma temp_file_removed_on_every_exit_witness :
  let env := Hosts.host true ∅ Hosts.says_hi in
  ∃ r m' calls,
    run_python_sandbox env "print('hi')" 4 Hosts.boot = (r, m')
    ∧ history (world m')
      = (history (world Hosts.boot) ++ calls ++ [CallRemove "/tmp/tmpabc.py"])%list
    ∧ (CallRemove "/tmp/tmpabc.py" ∉ calls)
    ∧ (remove_denied env = false → files (world m') !! "/tmp/tmpabc.py" = None)
    ∧ ∀ denied,
        fst (run_python_sandbox (with_remove_denied denied env) "print('hi')" 4
               Hosts.boot) = r.
Proof.
  apply (temp_file_removed_on_every_exit
           (Hosts.host true ∅ Hosts.says_hi) "print('hi')" 4 Hosts.boot
           "/tmp/tmpabc.py");
    vm_compute; reflexivity.
Defined.

(** ** C1: a child that cannot be spawned *)

(** C1 as stated fails: with no interpreter installed, the call does not
    return any dictionary; [FileNotFoundError] reaches the caller, and the
    [:run] command of the read-eval-print loop ends with it as well. *)
Lemma spawn_failure_is_raised :
  let env := Hosts.host true ∅ Hosts.says_hi in
  let r := run_python_sandbox env "print('hi')" 4 Hosts.boot in
  resolve env (python_cmd env "/tmp/tmpabc.py") = inl FileNotFoundError
  ∧ fst r = Raise FileNotFoundError
  ∧ (¬ ∃ d, fst r = Return d)
  ∧ fst (repl_run env ":run print('hi')" Hosts.boot) = Raise FileNotFoundError.
Proof.
  split; [reflexivity|]. split; [vm_compute; reflexivity|].
  split; [|vm_compute; reflexivity].
  intros [d Hd]. vm_compute in Hd. discriminate Hd.
Qed.

(** C1, amended. When the interpreter cannot be executed, the call makes
    its one [Popen] call and no other, tries to remove the temp file, and
    ends with the exception [Popen] raised: no dictionary is returned, and
    no child is left. *)
Theorem spawn_failure_propagates
    (env : Env) (code : string) (timeout : Z) (m : Machine)
    (path : string) (e : exn) :
  mkstemp_inner env ".py" (files (world m)) (tmp_random env) = Some path →
  disk_full env = false →
  resolve env (python_cmd env path) = inl e →
  ∃ e' m',
    run_python_sandbox env code timeout m = (Raise e', m')
    ∧ (e' = FileNotFoundError ∨ e' = PermissionError ∨ e' = SubprocessError)
    ∧ history (world m')
      = (history (world m) ++
         [CallMkstemp path; CallWrite path;
          CallPopen (python_cmd env path) (has_resource env);
          CallRemove path])%list
    ∧ children (world m') = children (world m).
Proof.
  intros Hmk Hdisk Hprog.
  destruct (run_preexec (preexec_of env) (fork (self (world m))))
    as [[[]|e0] c] eqn:Hpre.
  - rewrite (run_exec_fails env code timeout m path c e Hmk Hdisk Hpre Hprog).
    do 2 eexists. split; [reflexivity|].
    split; [destruct (resolve_error env _ _ Hprog); auto|].
    split; [simpl; rewrite <- !app_assoc; reflexivity | reflexivity].
  - rewrite (run_preexec_fails env code timeout m path e0 c Hmk Hdisk Hpre).
    do 2 eexists. split; [reflexivity|]. split; [auto|].
    split; [simpl; rewrite <- !app_assoc; reflexivity | reflexivity].
Qed.

Lemma spawn_failure_propagates_witness :
  let env := Hosts.host true ∅ Hosts.says_hi in
  ∃ e' m',
    run_python_sandbox env "print('hi')" 4 Hosts.boot = (Raise e', m')
    ∧ (e' = FileNotFoundError ∨ e' = PermissionError ∨ e' = SubprocessError)
    ∧ history (world m')
      = (history (world Hosts.boot) ++
         [CallMkstemp "/tmp/tmpabc.py"; CallWrite "/tmp/tmpabc.py";
          CallPopen (python_cmd env "/tmp/tmpabc.py") (has_resource env);
          CallRemove "/tmp/tmpabc.py"])%list
    ∧ children (world m') = children (world Hosts.boot).
Proof.
  apply (spawn_failure_propagates
           (Hosts.host true ∅ Hosts.says_hi) "print('hi')" 4 Hosts.boot
           "/tmp/tmpabc.py" FileNotFoundError);
    vm_compute; reflexivity.
Defined.

(** ** C4: a host without the resource module *)




(** ** C2: the child after a timeout *)

(** On the timeout path the child is sent SIGKILL and the call returns
    with the child in that state: the parent never waits for it. *)
Lemma timeout_leaves_child_signalled
    (env : Env) (code : string) (timeout : Z) (m : Machine)
    (path prog : string) (c : process) :
  mkstemp_inner env ".py" (files (world m)) (tmp_random env) = Some path →
  disk_full env = false →
  run_preexec (preexec_of env) (fork (self (world m))) = (Return tt, c) →
  resolve env (python_cmd env path) = inr prog →
  exits_within timeout
    (interpreter env (python_cmd env path) (Some code) (rlimits c)) = false →
  ∃ m',
    run_python_sandbox env code timeout m = (Return timeout_dict, m')
    ∧ status <$> (children (world m') !! next_pid (world m)) = Some Signalled
    ∧ history (world m')
      = (history (world m) ++
         [CallMkstemp path; CallWrite path; popen_call env path;
          CallCommunicate (next_pid (world m)) timeout;
          CallKill (next_pid (world m)); CallRemove path])%list.
Proof.
  intros Hmk Hdisk Hpre Hprog Hexit.
  destruct (overrun_does_not_finish _ _ Hexit) as [Hfin Hst].
  rewrite (run_timeout env code timeout m path c prog Hmk Hdisk Hpre Hprog Hfin).
  rewrite Hst.
  eexists. split; [reflexivity|]. simpl. rewrite lookup_insert_eq.
  split; [reflexivity|]. rewrite <- !app_assoc. reflexivity.
Qed.

(** C2. The code at the failing input: a child that never exits, under a
    timeout of one second. The call sends the kill, removes the temp file
    and returns; it makes no call that waits for the child, whose exit
    status is never collected. *)
Theorem timed_out_child_is_not_reaped :
  let r := run_python_sandbox (Hosts.host true Hosts.python3 Hosts.spins)
             "while True: pass" 1 Hosts.boot in
  fst r = Return timeout_dict
  ∧ history (world (snd r))
    = [CallMkstemp "/tmp/tmpabc.py"; CallWrite "/tmp/tmpabc.py";
       CallPopen ["/usr/bin/python3"; "-I"; "/tmp/tmpabc.py"] true;
       CallCommunicate 100 1; CallKill 100; CallRemove "/tmp/tmpabc.py"]
  ∧ status <$> (children (world (snd r)) !! 100) = Some Signalled
  ∧ ∀ rc, status <$> (children (world (snd r)) !! 100) ≠ Some (Reaped rc).
Proof.
  vm_compute. repeat split; try reflexivity. intros rc H. discriminate H.
Qed.

(** * Further properties of the code *)

Local Open Scope nat_scope.

(** ** filtering.py: the retry loop of [execute_sparql_with_retry] *)

Section RetryFacts.
Import Sparql.
Variables (F : Type) (times : F → Z → F) (R : Type).
Variables (respond : nat → raised + R) (query : string) (max_retries : Z) (delay : F).

Abbreviation loop := (attempts times respond query max_retries delay).

Lemma attempts_bounded fuel a :
  queries (snd (loop fuel a)) ≤ fuel
  ∧ ∀ r, fst (loop fuel a) = Some r →
      ∃ k, a ≤ k < a + fuel ∧ respond k = inr r
           ∧ queries (snd (loop fuel a)) = S (k - a).
Proof.
  revert a. induction fuel as [|fuel IH]; intros a.
  - simpl. split; [lia | discriminate].
  - destruct (IH (S a)) as [IHq IHr]. cbn [attempts].
    destruct (respond a) as [[e|msg]|res] eqn:Hresp.
    + destruct (is_rate_limited e);
        [|destruct (negb (Z.of_nat a <? max_retries - 1)%Z)];
        unfold and_then; simpl; (split; [lia|]); try discriminate.
      * intros r Hr. destruct (IHr r Hr) as (k & Hk & Hrk & Hq).
        exists k. split; [lia|]. split; [exact Hrk|]. rewrite Hq. lia.
      * intros r Hr. destruct (IHr r Hr) as (k & Hk & Hrk & Hq).
        exists k. split; [lia|]. split; [exact Hrk|]. rewrite Hq. lia.
    + destruct (is_syntax_error msg);
        [|destruct (negb (Z.of_nat a <? max_retries - 1)%Z)];
        unfold and_then; simpl; (split; [lia|]); try discriminate.
      intros r Hr. destruct (IHr r Hr) as (k & Hk & Hrk & Hq).
      exists k. split; [lia|]. split; [exact Hrk|]. rewrite Hq. lia.
    + simpl. split; [lia|]. intros r [= <-].
      exists a. split; [lia|]. split; [exact Hresp|]. f_equal. lia.
Qed.

Lemma attempts_first_success fuel a k r :
  a + fuel = Z.to_nat max_retries →
  a ≤ k < a + fuel →
  respond k = inr r →
  (∀ j, a ≤ j < k → ∃ f, respond j = inl f ∧ retried f = true) →
  fst (loop fuel a) = Some r ∧ queries (snd (loop fuel a)) = S (k - a).
Proof.
  revert a. induction fuel as [|fuel IH]; intros a Hmax Hk Hr Hbefore; [lia|].
  cbn [attempts]. destruct (decide (a = k)) as [->|Hne].
  - rewrite Hr. simpl. split; [reflexivity | f_equal; lia].
  - destruct (Hbefore a ltac:(lia)) as (f & Hf & Hretry). rewrite Hf.
    assert (Hlast : negb (Z.of_nat a <? max_retries - 1)%Z = false).
    { apply negb_false_iff, Z.ltb_lt. lia. }
    rewrite Hlast.
    destruct (IH (S a) ltac:(lia) ltac:(lia) Hr) as [IH1 IH2].
    { intros j Hj. apply Hbefore. lia. }
    destruct f as [e|msg]; simpl in Hretry.
    + destruct (is_rate_limited e); unfold and_then; simpl;
        (split; [exact IH1 | rewrite IH2; lia]).
    + apply negb_true_iff in Hretry. rewrite Hretry.
      unfold and_then; simpl. split; [exact IH1 | rewrite IH2; lia].
Qed.

Lemma attempts_syntax_error fuel a k msg :
  a + fuel = Z.to_nat max_retries →
  a ≤ k < a + fuel →
  respond k = inl (OtherError msg) →
  is_syntax_error msg = true →
  (∀ j, a ≤ j < k → ∃ f, respond j = inl f ∧ retried f = true) →
  fst (loop fuel a) = None
  ∧ queries (snd (loop fuel a)) = S (k - a)
  ∧ ∃ before,
      snd (loop fuel a)
      = (before ++ [Query query; Say (SaidSyntaxError msg);
                    Say SaidQueryThatFailed; Say (SaidQuery query)])%list.
Proof.
  revert a. induction fuel as [|fuel IH]; intros a Hmax Hk Hr Hsyn Hbefore; [lia|].
  cbn [attempts]. destruct (decide (a = k)) as [->|Hne].
  - rewrite Hr, Hsyn. simpl. split; [reflexivity|].
    split; [f_equal; lia|]. exists []. reflexivity.
  - destruct (Hbefore a ltac:(lia)) as (f & Hf & Hretry). rewrite Hf.
    assert (Hlast : negb (Z.of_nat a <? max_retries - 1)%Z = false).
    { apply negb_false_iff, Z.ltb_lt. lia. }
    rewrite Hlast.
    destruct (IH (S a) ltac:(lia) ltac:(lia) Hr Hsyn) as (IH1 & IH2 & before & IH3).
    { intros j Hj. apply Hbefore. lia. }
    destruct f as [e|msg']; simpl in Hretry.
    + destruct (is_rate_limited e); unfold and_then; simpl;
        (split; [exact IH1|]); (split; [rewrite IH2; lia|]);
        rewrite IH3; eexists (_ :: _ :: _ :: before); reflexivity.
    + apply negb_true_iff in Hretry. rewrite Hretry.
      unfold and_then; simpl. split; [exact IH1|]. split; [rewrite IH2; lia|].
      rewrite IH3. eexists (_ :: _ :: _ :: before); reflexivity.
Qed.

Lemma attempts_rate_limited fuel a :
  (∀ k, a ≤ k < a + fuel →
        ∃ e, respond k = inl (HTTPError e) ∧ is_rate_limited e = true) →
  fst (loop fuel a) = None
  ∧ queries (snd (loop fuel a)) = fuel
  ∧ sleeps (snd (loop fuel a))
    = map (λ k, times delay (2 ^ Z.of_nat k)%Z) (seq a fuel).
Proof.
  revert a. induction fuel as [|fuel IH]; intros a Hall; [simpl; auto|].
  cbn [attempts]. destruct (Hall a ltac:(lia)) as (e & -> & ->).
  destruct (IH (S a)) as (IH1 & IH2 & IH3).
  { intros k Hk. apply Hall. lia. }
  unfold and_then; simpl. rewrite IH1, IH2, IH3. auto.
Qed.

Lemma attempts_plain_failures fuel a :
  a + fuel = Z.to_nat max_retries →
  (∀ k, a ≤ k < a + fuel → ∃ f, respond k = inl f ∧ plain_failure f = true) →
  fst (loop fuel a) = None
  ∧ queries (snd (loop fuel a)) = fuel
  ∧ sleeps (snd (loop fuel a))
    = map (λ k, times delay (Z.of_nat k + 1)%Z) (seq a (fuel - 1)).
Proof.
  revert a. induction fuel as [|fuel IH]; intros a Hmax Hall; [simpl; auto|].
  cbn [attempts]. destruct (Hall a ltac:(lia)) as (f & -> & Hplain).
  destruct (IH (S a) ltac:(lia)) as (IH1 & IH2 & IH3).
  { intros k Hk. apply Hall. lia. }
  destruct (decide (fuel = 0)) as [->|Hpos].
  - assert (Hlast : negb (Z.of_nat a <? max_retries - 1)%Z = true).
    { apply negb_true_iff, Z.ltb_ge. lia. }
    rewrite Hlast.
    destruct f as [e|msg]; simpl in Hplain; apply negb_true_iff in Hplain;
      rewrite Hplain; simpl; auto.
  - assert (Hlast : negb (Z.of_nat a <? max_retries - 1)%Z = false).
    { apply negb_false_iff, Z.ltb_lt. lia. }
    rewrite Hlast.
    replace (S fuel - 1) with (S (fuel - 1)) by lia.
    destruct f as [e|msg]; simpl in Hplain; apply negb_true_iff in Hplain;
      rewrite Hplain; unfold and_then; simpl; rewrite IH1, IH2, IH3; auto.
Qed.

End RetryFacts.

(** X1. [execute_sparql_with_retry] never sends more than [max_retries]
    queries (none when [max_retries] is zero or negative), and a result it
    returns is the answer to the last query it sent. *)
Theorem sparql_queries_bounded
    (F : Type) (times : F → Z → F) (R : Type) (available : bool)
    (respond : nat → Sparql.raised + R) (query : string)
    (max_retries : Z) (delay : F) :
  let out := Sparql.execute_sparql_with_retry times available respond query
               max_retries delay in
  Sparql.queries (snd out) ≤ Z.to_nat max_retries
  ∧ ∀ r, fst out = Some r →
      ∃ k, k < Z.to_nat max_retries ∧ respond k = inr r
           ∧ Sparql.queries (snd out) = S k.
Proof.
  unfold Sparql.execute_sparql_with_retry. destruct available.
  - destruct (attempts_bounded F times R respond query max_retries delay
                (Z.to_nat max_retries) 0) as [Hq Hr].
    split; [exact Hq|]. intros r Hres.
    destruct (Hr r Hres) as (k & Hk & Hrk & Hqk).
    exists k. split; [lia|]. split; [exact Hrk|]. rewrite Hqk. f_equal. lia.
  - simpl. split; [lia | discriminate].
Qed.

(** X2. When the first attempts fail in a way the loop retries (any
    [HTTPError], or another exception that is not a syntax error) and
    attempt [k], within [max_retries], succeeds, the function returns that
    result after exactly [k + 1] queries. *)
Theorem sparql_first_success_wins
    (F : Type) (times : F → Z → F) (R : Type)
    (respond : nat → Sparql.raised + R) (query : string)
    (max_retries : Z) (delay : F) (k : nat) (r : R) :
  k < Z.to_nat max_retries →
  respond k = inr r →
  (∀ j, j < k → ∃ f, respond j = inl f ∧ Sparql.retried f = true) →
  let out := Sparql.execute_sparql_with_retry times true respond query
               max_retries delay in
  fst out = Some r ∧ Sparql.queries (snd out) = S k.
Proof.
  intros Hk Hr Hbefore. unfold Sparql.execute_sparql_with_retry.
  destruct (attempts_first_success F times R respond query max_retries delay
              (Z.to_nat max_retries) 0 k r) as [H1 H2];
    [lia | lia | exact Hr | intros j Hj; apply Hbefore; lia |].
  split; [exact H1|]. rewrite H2. f_equal. lia.
Qed.

Lemma sparql_first_success_wins_witness :
  let out := Sparql.execute_sparql_with_retry Z.mul true Endpoints.flaky
               "SELECT" 5 5%Z in
  fst out = Some "bindings" ∧ Sparql.queries (snd out) = 3.
Proof.
  apply (sparql_first_success_wins Z Z.mul string Endpoints.flaky
           "SELECT" 5 5%Z 2 "bindings").
  - simpl. lia.
  - reflexivity.
  - intros [|[|j]] Hj; [eexists; split; reflexivity ..| lia].
Defined.

(** X3. A syntax error ([QueryBadFormed] or "badly formed" in the text
    of the exception) ends the function at once: it returns [None], sends
    no further query and does not sleep after the failed one. *)
Theorem sparql_syntax_error_not_retried
    (F : Type) (times : F → Z → F) (R : Type)
    (respond : nat → Sparql.raised + R) (query : string)
    (max_retries : Z) (delay : F) (k : nat) (msg : string) :
  k < Z.to_nat max_retries →
  respond k = inl (Sparql.OtherError msg) →
  Sparql.is_syntax_error msg = true →
  (∀ j, j < k → ∃ f, respond j = inl f ∧ Sparql.retried f = true) →
  let out := Sparql.execute_sparql_with_retry times true respond query
               max_retries delay in
  fst out = None
  ∧ Sparql.queries (snd out) = S k
  ∧ ∃ before,
      snd out
      = (before ++ [Sparql.Query query; Sparql.Say (Sparql.SaidSyntaxError msg);
                    Sparql.Say Sparql.SaidQueryThatFailed;
                    Sparql.Say (Sparql.SaidQuery query)])%list.
Proof.
  intros Hk Hr Hsyn Hbefore. unfold Sparql.execute_sparql_with_retry.
  destruct (attempts_syntax_error F times R respond query max_retries delay
              (Z.to_nat max_retries) 0 k msg) as (H1 & H2 & H3);
    [lia | lia | exact Hr | exact Hsyn | intros j Hj; apply Hbefore; lia |].
  split; [exact H1|]. split; [rewrite H2; f_equal; lia | exact H3].
Qed.

Lemma sparql_syntax_error_not_retried_witness :
  let out := Sparql.execute_sparql_with_retry Z.mul true Endpoints.rejecting
               "SELECT" 5 5%Z in
  fst out = None
  ∧ Sparql.queries (snd out) = 2
  ∧ ∃ before,
      snd out
      = (before ++ [Sparql.Query "SELECT";
                    Sparql.Say (Sparql.SaidSyntaxError Endpoints.bad_query);
                    Sparql.Say Sparql.SaidQueryThatFailed;
                    Sparql.Say (Sparql.SaidQuery "SELECT")])%list.
Proof.
  apply (sparql_syntax_error_not_retried Z Z.mul string Endpoints.rejecting
           "SELECT" 5 5%Z 1 Endpoints.bad_query).
  - simpl. lia.
  - reflexivity.
  - reflexivity.
  - intros [|j] Hj; [eexists; split; reflexivity | lia].
Defined.

(** X4. When every attempt is rate limited (an [HTTPError] whose text has
    "429"), the function makes all [max_retries] attempts, returns [None],
    and sleeps after each of them, the last one included, for [delay * 2 **
    attempt] seconds. *)
Theorem sparql_rate_limit_sleeps_after_every_attempt
    (F : Type) (times : F → Z → F) (R : Type)
    (respond : nat → Sparql.raised + R) (query : string)
    (max_retries : Z) (delay : F) :
  (∀ k, k < Z.to_nat max_retries →
        ∃ e, respond k = inl (Sparql.HTTPError e)
             ∧ Sparql.is_rate_limited e = true) →
  let out := Sparql.execute_sparql_with_retry times true respond query
               max_retries delay in
  fst out = None
  ∧ Sparql.queries (snd out) = Z.to_nat max_retries
  ∧ Sparql.sleeps (snd out)
    = map (λ k, times delay (2 ^ Z.of_nat k)%Z) (seq 0 (Z.to_nat max_retries)).
Proof.
  intros Hall. unfold Sparql.execute_sparql_with_retry.
  apply (attempts_rate_limited F times R respond query max_retries delay).
  intros k Hk. apply Hall. lia.
Qed.

Lemma sparql_rate_limit_sleeps_after_every_attempt_witness :
  let out := Sparql.execute_sparql_with_retry Z.mul true Endpoints.throttled
               "SELECT" 5 5%Z in
  fst out = None
  ∧ Sparql.queries (snd out) = 5
  ∧ Sparql.sleeps (snd out) = [5; 10; 20; 40; 80]%Z.
Proof.
  apply (sparql_rate_limit_sleeps_after_every_attempt Z Z.mul string
           Endpoints.throttled "SELECT" 5 5%Z).
  intros k Hk. eexists; split; reflexivity.
Defined.

(** X5. When every attempt fails in a way that is retried and is not a
    rate limit, the function makes all [max_retries] attempts, returns
    [None], and sleeps [delay * (attempt + 1)] seconds between attempts:
    one sleep fewer than attempts, none after the last. *)
Theorem sparql_plain_failures_give_up
    (F : Type) (times : F → Z → F) (R : Type)
    (respond : nat → Sparql.raised + R) (query : string)
    (max_retries : Z) (delay : F) :
  (∀ k, k < Z.to_nat max_retries →
        ∃ f, respond k = inl f ∧ Sparql.plain_failure f = true) →
  let out := Sparql.execute_sparql_with_retry times true respond query
               max_retries delay in
  fst out = None
  ∧ Sparql.queries (snd out) = Z.to_nat max_retries
  ∧ Sparql.sleeps (snd out)
    = map (λ k, times delay (Z.of_nat k + 1)%Z)
        (seq 0 (Z.to_nat max_retries - 1)).
Proof.
  intros Hall. unfold Sparql.execute_sparql_with_retry.
  apply (attempts_plain_failures F times R respond query max_retries delay);
    [lia|]. intros k Hk. apply Hall. lia.
Qed.

Lemma sparql_plain_failures_give_up_witness :
  let out := Sparql.execute_sparql_with_retry Z.mul true Endpoints.down
               "SELECT" 5 5%Z in
  fst out = None
  ∧ Sparql.queries (snd out) = 5
  ∧ Sparql.sleeps (snd out) = [5; 10; 15; 20]%Z.
Proof.
  apply (sparql_plain_failures_give_up Z Z.mul string Endpoints.down
           "SELECT" 5 5%Z).
  intros k Hk. eexists; split; reflexivity.
Defined.

(** ** super_chatgpt.py: the conversation of a [SuperChat] *)

Section ChatFacts.
Import Chat.

Lemma any_system_cons_system (prompt : pyobj) (ms : list pyobj) :
  any_system (message "system" prompt :: ms) = inr true.
Proof. reflexivity. Qed.

(** X6. When [_ensure_system_message] returns, the conversation holds a
    system message; the messages that were there are all kept, in order,
    with at most the system prompt put in front of them; and a second call
    changes nothing. *)
Theorem ensure_system_message_once (sc sc' : SuperChat) :
  _ensure_system_message sc = (None, sc') →
  (messages sc' = messages sc ∨ messages sc' = system_message sc :: messages sc)
  ∧ any_system (messages sc') = inr true
  ∧ _ensure_system_message sc' = (None, sc')
  ∧ model sc' = model sc ∧ system_prompt sc' = system_prompt sc.
Proof.
  unfold _ensure_system_message.
  destruct (any_system (messages sc)) as [e|[]] eqn:Hany; [discriminate| |];
    intros [= <-].
  - rewrite Hany. auto.
  - cbn [messages set_messages]. rewrite any_system_cons_system.
    unfold system_message. auto.
Qed.

Lemma ensure_system_message_once_witness :
  let sc' := snd (_ensure_system_message bob) in
  _ensure_system_message bob = (None, sc')
  ∧ (messages sc' = messages bob ∨ messages sc' = system_message bob :: messages bob)
  ∧ any_system (messages sc') = inr true
  ∧ _ensure_system_message sc' = (None, sc')
  ∧ model sc' = model bob ∧ system_prompt sc' = system_prompt bob.
Proof.
  split; [reflexivity|].
  apply (ensure_system_message_once bob). reflexivity.
Defined.

Lemma consume_extends chunks broken text scr :
  ∃ more, snd (consume chunks broken text scr) = (scr ++ more)%list.
Proof.
  revert text scr. induction chunks as [|c rest IH]; intros text scr; simpl.
  - exists []. destruct broken; simpl; rewrite app_nil_r; reflexivity.
  - destruct (truthy (content_piece c)).
    + destruct (content_piece c) as [| | |s| |];
        try (eexists [_]; reflexivity).
      destruct (IH (text +:+ s) (scr ++ [Print (OStr s) ""])%list) as [more ->].
      exists (Print (OStr s) "" :: more). rewrite <- app_assoc. reflexivity.
    + apply IH.
Qed.

(** X7. [ask] always returns: whatever the service does (no package, an
    answer, a stream, an exception at any point), the conversation grows by
    exactly two messages, the prompt as "user" and then the value returned
    as "assistant"; earlier messages and earlier output stay as they
    were. *)
Theorem ask_appends_prompt_and_answer
    (openai : option Api) (prompt : string) (stream : bool)
    (sc : SuperChat) (scr : list printed) :
  let out := ask openai prompt stream sc scr in
  let answer := fst (fst out) in
  let sc' := snd (fst out) in
  messages sc'
  = (messages sc ++ [message "user" (OStr prompt); message "assistant" answer])%list
  ∧ model sc' = model sc
  ∧ system_prompt sc' = system_prompt sc
  ∧ ∃ more, snd out = (scr ++ more)%list.
Proof.
  assert (Herr : ∀ e scr',
    (∃ more, scr' = (scr ++ more)%list) →
    let out := api_error e (add_user_message (OStr prompt) sc) scr' in
    messages (snd (fst out))
    = (messages sc ++ [message "user" (OStr prompt);
                       message "assistant" (fst (fst out))])%list
    ∧ model (snd (fst out)) = model sc
    ∧ system_prompt (snd (fst out)) = system_prompt sc
    ∧ ∃ more, snd out = (scr ++ more)%list).
  { intros e scr' Hscr. simpl. rewrite <- app_assoc. auto. }
  assert (Hnil : ∃ more, scr = (scr ++ more)%list)
    by (exists []; rewrite app_nil_r; reflexivity).
  unfold ask. destruct openai as [api|].
  2:{ simpl. rewrite <- app_assoc. auto. }
  destruct (if stream then hasattr_create api else inr false) as [e|[]].
  - apply Herr, Hnil.
  - destruct (create_stream api _) as [e|[chunks broken]].
    + apply Herr. eexists; reflexivity.
    + destruct (consume_extends chunks broken ""
                  (scr ++ [Print (OStr "[streaming response] ") ""])%list)
        as [more Hmore].
      destruct (consume chunks broken "" _) as [[e|text] scr'];
        simpl in Hmore; subst scr'.
      * apply Herr. exists (Print (OStr "[streaming response] ") "" :: more).
        rewrite <- app_assoc. reflexivity.
      * simpl. rewrite <- !app_assoc. eauto.
  - destruct (create_content api _) as [e|text].
    + apply Herr, Hnil.
    + simpl. rewrite <- app_assoc. auto.
Qed.

Lemma string_app_assoc (a b c : string) : (a +:+ b) +:+ c = a +:+ (b +:+ c).
Proof.
  induction a as [|x a IH]; [reflexivity|].
  change (String x ((a +:+ b) +:+ c) = String x (a +:+ (b +:+ c))).
  f_equal. exact IH.
Qed.

Lemma string_app_empty (a : string) : a +:+ "" = a.
Proof.
  induction a as [|x a IH]; [reflexivity|].
  change (String x (a +:+ "") = String x a). f_equal. exact IH.
Qed.

Lemma consume_shown chunks text scr :
  forallb (λ c, harmless (content_piece c)) chunks = true →
  consume chunks None text scr
  = (inr (text +:+ joined (shown chunks)),
     (scr ++ map (λ s, Print (OStr s) "") (shown chunks))%list).
Proof.
  revert text scr. induction chunks as [|c rest IH]; intros text scr Hall.
  - simpl. rewrite string_app_empty, app_nil_r. reflexivity.
  - simpl in Hall. apply andb_true_iff in Hall as [Hc Hrest]. simpl.
    destruct (content_piece c) as [|b|n|s|items|entries]; simpl in Hc |- *.
    + apply IH, Hrest.
    + apply negb_true_iff in Hc. rewrite Hc. apply IH, Hrest.
    + apply negb_true_iff in Hc. rewrite Hc. apply IH, Hrest.
    + destruct (String.eqb s ""); simpl.
      * apply IH, Hrest.
      * rewrite (IH _ _ Hrest), string_app_assoc, <- app_assoc. reflexivity.
    + apply negb_true_iff in Hc. rewrite Hc. apply IH, Hrest.
    + apply negb_true_iff in Hc. rewrite Hc. apply IH, Hrest.
Qed.

(** X8. In streaming mode, when the stream ends normally and each piece is
    a string or a value that counts as false, [ask] returns the non-empty
    pieces joined in order: exactly the text it has printed piece by piece,
    after the banner and before a final newline. Pieces that cannot be read
    either way count as empty. *)
Theorem streamed_answer_is_what_was_shown
    (api : Api) (prompt : string) (sc : SuperChat) (scr : list printed)
    (chunks : list chunk) :
  hasattr_create api = inr true →
  create_stream api (stream_request (add_user_message (OStr prompt) sc))
  = inr (chunks, None) →
  forallb (λ c, harmless (content_piece c)) chunks = true →
  ask (Some api) prompt true sc scr
  = (OStr (joined (shown chunks)),
     add_assistant_message (OStr (joined (shown chunks)))
       (add_user_message (OStr prompt) sc),
     (scr ++ [Print (OStr "[streaming response] ") ""]
          ++ map (λ s, Print (OStr s) "") (shown chunks)
          ++ [Print (OStr "") newline])%list).
Proof.
  intros Hattr Hstream Hall. unfold ask. rewrite Hattr, Hstream.
  rewrite (consume_shown chunks "" _ Hall). simpl.
  rewrite <- !app_assoc. reflexivity.
Qed.

Lemma streamed_answer_is_what_was_shown_witness :
  ask (Some streaming_api) "hello" true bob []
  = (OStr "Hello",
     add_assistant_message (OStr "Hello") (add_user_message (OStr "hello") bob),
     [Print (OStr "[streaming response] ") ""; Print (OStr "He") "";
      Print (OStr "llo") ""; Print (OStr "") newline]).
Proof.
  apply (streamed_answer_is_what_was_shown streaming_api "hello" bob []
           [ {| by_attribute := Some (OStr "He"); by_item := None |};
             {| by_attribute := Some ONone; by_item := None |};
             {| by_attribute := None; by_item := Some (OStr "llo") |};
             {| by_attribute := None; by_item := None |} ]);
    reflexivity.
Defined.

(** X9. A failure of the service does not leave [ask]: the text
    "[API error] " followed by the text of the exception is returned as the
    answer, stored as an assistant message, and so is part of the messages
    sent to the service by the next [ask]. *)
Theorem failed_answer_is_sent_back
    (api : Api) (p1 p2 : string) (sc : SuperChat) (scr : list printed)
    (e : string) :
  create_content api (plain_request (add_user_message (OStr p1) sc)) = inl e →
  let out := ask (Some api) p1 false sc scr in
  let err := OStr ("[API error] " +:+ e) in
  let next := plain_request (add_user_message (OStr p2) (snd (fst out))) in
  fst (fst out) = err
  ∧ req_messages next
    = (messages sc ++ [message "user" (OStr p1); message "assistant" err;
                       message "user" (OStr p2)])%list
  ∧ fst (fst (ask (Some api) p2 false (snd (fst out)) (snd out)))
    = match create_content api next with
      | inl e' => OStr ("[API error] " +:+ e')
      | inr text => text
      end.
Proof.
  intros Hfail.
  assert (Hout : ask (Some api) p1 false sc scr
                 = api_error e (add_user_message (OStr p1) sc) scr).
  { unfold ask. rewrite Hfail. reflexivity. }
  cbv zeta. rewrite Hout. cbn [api_error fst snd].
  split; [reflexivity|].
  split; [simpl; rewrite <- !app_assoc; reflexivity|].
  unfold ask.
  destruct (create_content api
              (plain_request (add_user_message (OStr p2) _))) as [e'|text];
    reflexivity.
Qed.

Lemma failed_answer_is_sent_back_witness :
  let out := ask (Some streaming_api) "one" false bob [] in
  let err := OStr "[API error] connection refused" in
  let next := plain_request (add_user_message (OStr "two") (snd (fst out))) in
  fst (fst out) = err
  ∧ req_messages next
    = (messages bob ++ [message "user" (OStr "one"); message "assistant" err;
                        message "user" (OStr "two")])%list
  ∧ fst (fst (ask (Some streaming_api) "two" false (snd (fst out)) (snd out)))
    = match create_content streaming_api next with
      | inl e' => OStr ("[API error] " +:+ e')
      | inr text => text
      end.
Proof.
  apply (failed_answer_is_sent_back streaming_api "one" "two" bob []
           "connection refused").
  reflexivity.
Defined.

(** X10. [load] from a file that does not exist, or whose document is not
    a list, does not fail: it replaces the conversation of the object by
    the system prompt alone, so the messages held before are lost. *)
Theorem load_without_list_resets
    (filename : string) (sc : SuperChat) (d : Disk) :
  (store d !! filename = None
   ∨ ∃ v, store d !! filename = Some (Json v) ∧ isinstance_list v = false) →
  load filename sc d = (None, set_messages [system_message sc] sc).
Proof.
  unfold load, load_conversation.
  intros [-> | (v & -> & Hv)]; [reflexivity|].
  destruct v; try reflexivity. discriminate Hv.
Qed.

Lemma load_without_list_resets_witness :
  load "/home/u/.super_chatgpt/default_conversation.json" alice empty_disk
  = (None, set_messages [system_message alice] alice).
Proof.
  apply (load_without_list_resets
           "/home/u/.super_chatgpt/default_conversation.json" alice empty_disk).
  left. reflexivity.
Defined.

(** X11. Round trip: after a [save] that succeeded, a [load] of the same
    file, by this object or by any other [SuperChat], gives exactly the
    messages saved, provided they hold a system message that
    [_ensure_system_message] reaches. No second system message is added,
    whatever the system prompt of the loading object. *)
Theorem save_then_load_restores
    (filename : string) (sc other : SuperChat) (d : Disk) :
  writable d filename = true →
  any_system (messages sc) = inr true →
  let saved := save filename sc d in
  fst saved = None
  ∧ store (snd saved) !! filename = Some (Json (OList (messages sc)))
  ∧ load filename other (snd saved) = (None, set_messages (messages sc) other).
Proof.
  intros Hw Hsys. unfold save, save_conversation. rewrite Hw. simpl.
  split; [reflexivity|]. split; [apply lookup_insert_eq|].
  unfold load, load_conversation. simpl. rewrite lookup_insert_eq.
  unfold _ensure_system_message. simpl. rewrite Hsys. reflexivity.
Qed.

Lemma save_then_load_restores_witness :
  let saved := save "chat.json" alice empty_disk in
  fst saved = None
  ∧ store (snd saved) !! "chat.json" = Some (Json (OList (messages alice)))
  ∧ load "chat.json" bob (snd saved) = (None, set_messages (messages alice) bob).
Proof.
  apply (save_then_load_restores "chat.json" alice bob empty_disk);
    reflexivity.
Defined.

(** X12. When the file holds a list in which the search for a system
    message meets an entry it cannot index (not a dictionary, or one
    without "role") before any system message, [load] raises that
    [TypeError] or [KeyError], and it does so after the conversation of the
    object has been replaced by the list: the messages held before are
    lost. *)
Theorem load_of_bad_list_replaces_then_raises
    (filename : string) (sc : SuperChat) (d : Disk)
    (data : list pyobj) (e : fault) :
  store d !! filename = Some (Json (OList data)) →
  any_system data = inl e →
  load filename sc d = (Some e, set_messages data sc)
  ∧ (e = TypeError ∨ e = KeyError "role").
Proof.
  intros Hfile Hbad. unfold load, load_conversation. rewrite Hfile.
  unfold _ensure_system_message. simpl. rewrite Hbad.
  split; [reflexivity|]. clear Hfile.
  induction data as [|m rest IH]; [discriminate|].
  destruct m as [| | | | |entries]; simpl in Hbad; try (left; congruence).
  destruct (dict_lookup "role" entries) as [v|].
  - destruct (eq_str v "system"); [discriminate | exact (IH Hbad)].
  - right. congruence.
Qed.

Lemma load_of_bad_list_replaces_then_raises_witness :
  load "chat.json" alice broken_disk
  = (Some (KeyError "role"), set_messages [ODict [("content", OStr "hi")]] alice)
  ∧ (KeyError "role" = TypeError ∨ KeyError "role" = KeyError "role").
Proof.
  apply (load_of_bad_list_replaces_then_raises "chat.json" alice broken_disk
           [ODict [("content", OStr "hi")]] (KeyError "role"));
    reflexivity.
Defined.

End ChatFacts.

(** ** super_chatgpt.py: the command [:run] of [repl_loop] *)

Section RunCommand.
Variable env : Env.


Ltac enter_run :=
  unfold repl_run;
  cbv [mbind Eff_bind py_print modify on_world world files children next_pid
       self console history proc].



(** X15. [:run] has no handler of its own: when the interpreter cannot be
    executed, the exception of [Popen] leaves the command, and with it the
    loop, after the banner alone has been printed; the temp file has been
    removed unless the host refused. *)
Theorem repl_run_propagates_spawn_failure
    (user_in : string) (m : Machine) (path : string) (e : exn) :
  mkstemp_inner env ".py" (files (world m)) (tmp_random env) = Some path →
  disk_full env = false →
  resolve env (python_cmd env path) = inl e →
  ∃ e' m',
    repl_run env user_in m = (Raise e', m')
    ∧ (e' = FileNotFoundError ∨ e' = PermissionError ∨ e' = SubprocessError)
    ∧ console (world m')
      = (console (world m) ++ [PyStr "[running code snippet]"])%list
    ∧ (remove_denied env = false → files (world m') !! path = None).
Proof.
  intros Hmk Hdisk Hprog.
  destruct m as [[fs cs np sf con hist] pr]. cbn [world files self] in Hmk.
  set (code := String.substring 5 (String.length user_in - 5) user_in).
  set (m1 := {| world := {| files := fs; children := cs; next_pid := np;
                            self := sf;
                            console := con ++ [PyStr "[running code snippet]"];
                            history := hist |};
                proc := pr |}).
  destruct (run_preexec (preexec_of env) (fork sf)) as [[[]|e0] c] eqn:Hpre.
  - pose proof (run_exec_fails env code 4 m1 path c e Hmk Hdisk Hpre Hprog) as Hrun.
    enter_run. fold code. fold m1. rewrite Hrun.
    do 2 eexists. split; [reflexivity|].
    split; [destruct (resolve_error env _ _ Hprog); auto|].
    split; [reflexivity|]. intros Hrm. simpl. rewrite Hrm.
    apply lookup_delete_eq.
  - pose proof (run_preexec_fails env code 4 m1 path e0 c Hmk Hdisk Hpre) as Hrun.
    enter_run. fold code. fold m1. rewrite Hrun.
    do 2 eexists. split; [reflexivity|]. split; [auto|].
    split; [reflexivity|]. intros Hrm. simpl. rewrite Hrm.
    apply lookup_delete_eq.
Qed.

End RunCommand.



Lemma repl_run_propagates_spawn_failure_witness :
  let env := Hosts.host true ∅ Hosts.says_hi in
  ∃ e' m',
    repl_run env ":run print('hi')" Hosts.boot = (Raise e', m')
    ∧ (e' = FileNotFoundError ∨ e' = PermissionError ∨ e' = SubprocessError)
    ∧ console (world m') = [PyStr "[running code snippet]"]
    ∧ (remove_denied env = false → files (world m') !! "/tmp/tmpabc.py" = None).
Proof.
  apply (repl_run_propagates_spawn_failure
           (Hosts.host true ∅ Hosts.says_hi) ":run print('hi')"
           Hosts.boot "/tmp/tmpabc.py" FileNotFoundError);
    vm_compute; reflexivity.
Defined.

(** ** super_chatgpt.py: more on [run_python_sandbox] *)

Section SandboxFrame.
Variable env : Env.

Lemma mkstemp_inner_fresh suffix (fs : gmap string string) draws path :
  mkstemp_inner env suffix fs draws = Some path →
  fs !! path = None
  ∧ ∃ r, r ∈ draws ∧ path = tmp_dir env +:+ "/tmp" +:+ r +:+ suffix.
Proof.
  induction draws as [|r rest IH]; simpl; [discriminate|].
  destruct (fs !! (tmp_dir env +:+ "/tmp" +:+ r +:+ suffix)) eqn:Hfs.
  - intros H. destruct (IH H) as (Hnone & r' & Hr' & ->).
    split; [exact Hnone|]. exists r'. split; [right; exact Hr' | reflexivity].
  - intros [= <-]. split; [exact Hfs|]. exists r.
    split; [left | reflexivity].
Qed.

(** X16. Once the code is written: the temp file never replaces a file
    that exists. When a child is executed, the files after the call are the
    files as the child left them, whatever it did to them, less the temp
    file where the host lets it be removed. When no child is executed, the
    files after the call are exactly the files before it where the host
    lets the temp file be removed, and otherwise differ from them by the
    temp file alone, which holds the code. *)
Theorem files_after_the_call
    (code : string) (timeout : Z) (m : Machine) (path : string) :
  mkstemp_inner env ".py" (files (world m)) (tmp_random env) = Some path →
  disk_full env = false →
  let after := files (world (snd (run_python_sandbox env code timeout m))) in
  files (world m) !! path = None
  ∧ (∀ c prog,
       run_preexec (preexec_of env) (fork (self (world m))) = (Return tt, c) →
       resolve env (python_cmd env path) = inr prog →
       let b := interpreter env (python_cmd env path) (Some code) (rlimits c) in
       let left_by_child := touches b (<[path := code]> (files (world m))) in
       after = if remove_denied env then left_by_child
               else delete path left_by_child)
  ∧ ((∃ e c, run_preexec (preexec_of env) (fork (self (world m))) = (Raise e, c))
     ∨ (∃ e, resolve env (python_cmd env path) = inl e) →
     after = if remove_denied env then <[path := code]> (files (world m))
             else files (world m)).
Proof.
  intros Hmk Hdisk after.
  destruct (mkstemp_inner_fresh _ _ _ _ Hmk) as [Hfresh _].
  split; [exact Hfresh|]. split.
  - intros c prog Hpre Hprog b left_by_child. unfold after.
    destruct (run_spawned env code timeout m path c prog Hmk Hdisk Hpre Hprog)
      as (r & calls & st & -> & _).
    reflexivity.
  - intros Hfail. unfold after.
    assert (Hrun : ∃ r, run_python_sandbox env code timeout m
                        = (r, cleaned env path
                                (failed_popen env path (staged path code m)))).
    { destruct (run_preexec (preexec_of env) (fork (self (world m))))
        as [[[]|e0] c] eqn:Hpre.
      - destruct Hfail as [(e & c' & H) | (e & Hprog)]; [discriminate H|].
        rewrite (run_exec_fails env code timeout m path c e Hmk Hdisk Hpre Hprog).
        eauto.
      - rewrite (run_preexec_fails env code timeout m path e0 c Hmk Hdisk Hpre).
        eauto. }
    destruct Hrun as [r ->]. simpl.
    destruct (remove_denied env); [reflexivity|].
    apply delete_insert_id, Hfresh.
Qed.


(** X17. When writing the code to the temp file fails, the call ends with
    that [OSError] before the [try] statement is entered: no process is
    started, [os.remove] is never called, and the temp file stays on the
    disk. *)
Theorem write_failure_leaves_temp_file
    (code : string) (timeout : Z) (m : Machine) (path : string) :
  mkstemp_inner env ".py" (files (world m)) (tmp_random env) = Some path →
  disk_full env = true →
  ∃ m',
    run_python_sandbox env code timeout m = (Raise OSError, m')
    ∧ is_Some (files (world m') !! path)
    ∧ history (world m')
      = (history (world m) ++ [CallMkstemp path; CallWrite path])%list
    ∧ children (world m') = children (world m).
Proof.
  intros Hmk Hdisk.
  unfold run_python_sandbox, mbind, Eff_bind, NamedTemporaryFile.
  rewrite Hmk. unfold tf_write. rewrite Hdisk.
  destruct m as [[fs cs np sf con hist] pr]. simpl.
  eexists. split; [reflexivity|]. simpl.
  rewrite lookup_insert_eq, <- app_assoc. eauto.
Qed.

Lemma setrlimit_refused r v (p : process) :
  privileged p = false →
  rlim_leb (fst v) (snd v) = true →
  rlim_leb (snd v) (snd (getrlimit_of r (rlimits p))) = false →
  setrlimit r v p = (Raise ValueError, p).
Proof.
  unfold setrlimit. destruct v as [soft hard]. cbn [fst snd].
  destruct (getrlimit_of r (rlimits p)) as [s0 h0]. cbn [snd].
  intros -> -> ->. reflexivity.
Qed.

Lemma _limit_refused (p : process) :
  privileged p = false →
  rlim_leb (Lim 2) (snd (lim_cpu (rlimits p))) = false
  ∨ rlim_leb (Lim 209715200) (snd (lim_as (rlimits p))) = false →
  ∃ c, _limit p = (Raise ValueError, c).
Proof.
  intros Hpriv Hlow. unfold _limit, mbind, Eff_bind.
  destruct (rlim_leb (Lim 2) (snd (lim_cpu (rlimits p)))) eqn:Hcpu.
  - destruct Hlow as [Hlow|Hlow]; [discriminate|].
    rewrite setrlimit_succeeds; [|reflexivity|exact Hcpu].
    rewrite setrlimit_refused; [eauto|exact Hpriv|reflexivity|exact Hlow].
  - rewrite setrlimit_refused; [eauto|exact Hpriv|reflexivity|exact Hcpu].
Qed.

(** X18. When the [resource] module is there but the calling process,
    without privilege, already has a hard limit below the two seconds of
    CPU time or the 200 MB of address space that [_limit] asks for, every
    call ends with [SubprocessError]: the interpreter is never executed, no
    child is left, and the temp file has been dealt with as usual. *)
Theorem low_hard_limit_blocks_every_run
    (code : string) (timeout : Z) (m : Machine) (path : string) :
  has_resource env = true →
  privileged (self (world m)) = false →
  rlim_leb (Lim 2) (snd (lim_cpu (rlimits (self (world m))))) = false
  ∨ rlim_leb (Lim 209715200) (snd (lim_as (rlimits (self (world m))))) = false →
  mkstemp_inner env ".py" (files (world m)) (tmp_random env) = Some path →
  disk_full env = false →
  ∃ m',
    run_python_sandbox env code timeout m = (Raise SubprocessError, m')
    ∧ children (world m') = children (world m)
    ∧ history (world m')
      = (history (world m) ++
         [CallMkstemp path; CallWrite path;
          CallPopen (python_cmd env path) true; CallRemove path])%list.
Proof.
  intros Hres Hpriv Hlow Hmk Hdisk.
  destruct (_limit_refused (fork (self (world m))) Hpriv Hlow) as [c Hlim].
  assert (Hpre : run_preexec (preexec_of env) (fork (self (world m)))
                 = (Raise ValueError, c)).
  { unfold preexec_of. rewrite Hres. exact Hlim. }
  rewrite (run_preexec_fails env code timeout m path _ c Hmk Hdisk Hpre).
  eexists. split; [reflexivity|]. split; [reflexivity|].
  simpl. unfold popen_call. rewrite Hres, <- !app_assoc. reflexivity.
Qed.

End SandboxFrame.

Lemma files_after_the_call_witness :
  let env := Hosts.host true Hosts.python3 Hosts.says_hi in
  let m := Hosts.boot in
  let path := "/tmp/tmpabc.py" in
  let code := "print('hi')" in
  let after := files (world (snd (run_python_sandbox env code 4 m))) in
  files (world m) !! path = None
  ∧ (∀ c prog,
       run_preexec (preexec_of env) (fork (self (world m))) = (Return tt, c) →
       resolve env (python_cmd env path) = inr prog →
       let b := interpreter env (python_cmd env path) (Some code) (rlimits c) in
       let left_by_child := touches b (<[path := code]> (files (world m))) in
       after = if remove_denied env then left_by_child
               else delete path left_by_child)
  ∧ ((∃ e c, run_preexec (preexec_of env) (fork (self (world m))) = (Raise e, c))
     ∨ (∃ e, resolve env (python_cmd env path) = inl e) →
     after = if remove_denied env then <[path := code]> (files (world m))
             else files (world m)).
Proof.
  apply (files_after_the_call
           (Hosts.host true Hosts.python3 Hosts.says_hi) "print('hi')" 4
           Hosts.boot "/tmp/tmpabc.py");
    vm_compute; reflexivity.
Defined.

Lemma write_failure_leaves_temp_file_witness :
  ∃ m',
    run_python_sandbox Limited.full_disk "print('hi')" 4 Hosts.boot
    = (Raise OSError, m')
    ∧ is_Some (files (world m') !! "/tmp/tmpabc.py")
    ∧ history (world m')
      = (history (world Hosts.boot) ++
         [CallMkstemp "/tmp/tmpabc.py"; CallWrite "/tmp/tmpabc.py"])%list
    ∧ children (world m') = children (world Hosts.boot).
Proof.
  apply (write_failure_leaves_temp_file Limited.full_disk "print('hi')" 4
           Hosts.boot "/tmp/tmpabc.py");
    vm_compute; reflexivity.
Defined.

Lemma low_hard_limit_blocks_every_run_witness :
  let env := Hosts.host true Hosts.python3 Hosts.says_hi in
  ∃ m',
    run_python_sandbox env "print('hi')" 4 Limited.boot
    = (Raise SubprocessError, m')
    ∧ children (world m') = children (world Limited.boot)
    ∧ history (world m')
      = (history (world Limited.boot) ++
         [CallMkstemp "/tmp/tmpabc.py"; CallWrite "/tmp/tmpabc.py";
          CallPopen (python_cmd env "/tmp/tmpabc.py") true;
          CallRemove "/tmp/tmpabc.py"])%list.
Proof.
  apply (low_hard_limit_blocks_every_run
           (Hosts.host true Hosts.python3 Hosts.says_hi) "print('hi')" 4
           Limited.boot "/tmp/tmpabc.py");
    [reflexivity | reflexivity | left; reflexivity
     | vm_compute; reflexivity | reflexivity].
Defined.

Lemma sparql_queries_bounded_witness :
  let out := Sparql.execute_sparql_with_retry Z.mul true Endpoints.flaky
               "SELECT" 5 5%Z in
  Sparql.queries (snd out) ≤ 5
  ∧ ∀ r, fst out = Some r →
      ∃ k, k < 5 ∧ Endpoints.flaky k = inr r ∧ Sparql.queries (snd out) = S k.
Proof.
  exact (sparql_queries_bounded Z Z.mul string true Endpoints.flaky
           "SELECT" 5 5%Z).
Defined.

(** ** filtering.py: the processing of the results *)

Section FilteringFacts.
Import Chat Filtering.

Lemma split_on_pieces (sep : ascii) (s : string) :
  Forall (λ piece, sep ∉ String.list_ascii_of_string piece) (split_on sep s).
Proof.
  induction s as [|ch rest IH]; simpl.
  - constructor; [apply not_elem_of_nil | constructor].
  - destruct (Ascii.eqb ch sep) eqn:Hch.
    + constructor; [apply not_elem_of_nil | exact IH].
    + apply Ascii.eqb_neq in Hch.
      destruct (split_on sep rest) as [|piece more].
      * constructor; [|constructor]. simpl.
        rewrite not_elem_of_cons. split; [congruence | apply not_elem_of_nil].
      * inversion IH as [|? ? Hpiece Hmore]; subst.
        constructor; [|exact Hmore]. simpl.
        rewrite not_elem_of_cons. split; [congruence | exact Hpiece].
Qed.

Section WithReaders.
Variable strip : string → string.
Variable int_of_str : string → option Z.

Lemma qid_list_good (combo : string) : Forall (good_qid strip) (qid_list strip combo).
Proof.
  unfold qid_list. pose proof (split_on_pieces bar combo) as Hpieces.
  induction Hpieces as [|piece pieces Hpiece _ IH]; simpl; [constructor|].
  destruct (String.eqb (strip piece) "") eqn:Hempty; simpl; [exact IH|].
  constructor; [|exact IH]. split.
  - intros Heq. rewrite Heq in Hempty. discriminate Hempty.
  - exists piece. split; [reflexivity | exact Hpiece].
Qed.

Lemma one_binding_good (binding : pyobj) (e : entry) :
  one_binding strip int_of_str binding = inr (Some e) → Forall (good_qid strip) (qids e).
Proof.
  unfold one_binding, next.
  destruct (py_get binding "comboQIDs" _) as [|c]; [discriminate|].
  destruct (py_get c "value" _) as [|combo]; [discriminate|].
  destruct (py_get binding "formsWithThisCombo" _) as [|f]; [discriminate|].
  destruct (py_get f "value" _) as [|form_count]; [discriminate|].
  destruct (truthy combo); [|discriminate].
  destruct combo as [| | |s| |]; try discriminate.
  destruct (py_int int_of_str form_count) as [|n]; [discriminate|].
  intros [= <-]. apply qid_list_good.
Qed.

Lemma process_good (bindings : list pyobj) (entries : list entry) :
  process strip int_of_str bindings = inr entries →
  Forall (λ e, Forall (good_qid strip) (qids e)) entries
  ∧ length entries ≤ length bindings.
Proof.
  revert entries. induction bindings as [|binding rest IH]; intros entries; simpl.
  - intros [= <-]. split; [apply Forall_nil_2 | reflexivity].
  - unfold next.
    destruct (one_binding strip int_of_str binding) as [|appended] eqn:Hone;
      [discriminate|].
    destruct (process strip int_of_str rest) as [|more]; [discriminate|].
    destruct (IH more eq_refl) as [IHgood IHlen].
    destruct appended as [e|]; intros [= <-]; simpl.
    + split; [|lia]. constructor; [|exact IHgood].
      apply (one_binding_good binding), Hone.
    + split; [exact IHgood | lia].
Qed.

End WithReaders.

(** X19. Whatever the response looks like, when the processing in
    [filtering] returns a list, no entry of it holds an empty identifier:
    each identifier is the stripped form of a piece of "comboQIDs" between
    two bars, and pieces that strip to nothing are left out. *)
Theorem processed_qids_are_never_empty
    (strip : string → string) (int_of_str : string → option Z)
    (results : option pyobj) (entries : list entry) :
  process_results strip int_of_str results = inr (Some entries) →
  ∀ e q, e ∈ entries → q ∈ qids e →
    q ≠ "" ∧ ∃ piece, q = strip piece ∧ has_no_bar piece.
Proof.
  unfold process_results, next. destruct results as [r|]; [|discriminate].
  destruct (py_get r "results" _) as [|res]; [discriminate|].
  destruct (py_get res "bindings" _) as [|bindings]; [discriminate|].
  destruct (iterate bindings) as [|bs]; [discriminate|].
  destruct (process strip int_of_str bs) as [|processed] eqn:Hproc;
    [discriminate|].
  intros [= <-] e q He Hq.
  destruct (process_good strip int_of_str bs processed Hproc) as [Hgood _].
  rewrite Forall_forall in Hgood. specialize (Hgood e He).
  rewrite Forall_forall in Hgood. exact (Hgood q Hq).
Qed.

Lemma processed_qids_are_never_empty_witness :
  let entries := [ {| qids := ["Q110786"; "Q131105"]; count := 7 |};
                   {| qids := ["Q146786"]; count := 7 |} ] in
  process_results id reads_seven (Some response) = inr (Some entries)
  ∧ ∀ e q, e ∈ entries → q ∈ qids e →
      q ≠ "" ∧ ∃ piece, q = id piece ∧ has_no_bar piece.
Proof.
  split; [reflexivity|].
  apply (processed_qids_are_never_empty id reads_seven (Some response)).
  reflexivity.
Defined.

Lemma elem_of_all_qids (q : string) (results : list entry) :
  q ∈ concat (map qids results) ↔ ∃ e, e ∈ results ∧ q ∈ qids e.
Proof.
  induction results as [|e rest IH]; simpl.
  - split; [intros H; destruct (not_elem_of_nil _ H)|].
    intros (e & He & _). destruct (not_elem_of_nil _ He).
  - rewrite elem_of_app, IH. split.
    + intros [Hq | (e' & He' & Hq)]; [exists e | exists e'];
        (split; [|exact Hq]); [left | right; exact He'].
    + intros (e' & He' & Hq). apply elem_of_cons in He' as [->|He'].
      * left. exact Hq.
      * right. eauto.
Qed.

(** X20. The list of forms written for a language and a data type is
    sorted, has no duplicate, and holds exactly the identifiers that occur
    in some result. *)
Theorem unique_qid_forms_sorted (results : list entry) :
  Sorted String.le (unique_qid_forms results)
  ∧ NoDup (unique_qid_forms results)
  ∧ ∀ q, q ∈ unique_qid_forms results ↔ ∃ e, e ∈ results ∧ q ∈ qids e.
Proof.
  unfold unique_qid_forms. split; [apply Sorted_merge_sort; apply _|].
  split.
  - rewrite merge_sort_Permutation. apply NoDup_elements.
  - intros q. rewrite merge_sort_Permutation, elem_of_elements,
      elem_of_list_to_set. apply elem_of_all_qids.
Qed.

(** X21. One binding that cannot be processed loses them all: when any
    binding of the response makes the loop body raise (a value without
    [get], a combination that is not a string, a count that [int] rejects),
    the loop raises and no result at all is returned, whatever the other
    bindings hold. *)
Theorem one_bad_binding_fails_all
    (strip : string → string) (int_of_str : string → option Z)
    (bindings : list pyobj) (binding : pyobj) (e : failure) :
  binding ∈ bindings →
  one_binding strip int_of_str binding = inl e →
  ∃ e', process strip int_of_str bindings = inl e'.
Proof.
  intros Hin Hbad. induction bindings as [|b rest IH].
  - destruct (not_elem_of_nil _ Hin).
  - simpl. unfold next. apply elem_of_cons in Hin as [<-|Hin].
    + rewrite Hbad. eauto.
    + destruct (one_binding strip int_of_str b) as [e1|appended]; [eauto|].
      destruct (IH Hin) as [e' ->]. eauto.
Qed.

Lemma one_bad_binding_fails_all_witness :
  ∃ e', process id reads_seven half_bad = inl e'.
Proof.
  apply (one_bad_binding_fails_all id reads_seven half_bad
           (ODict [bound "comboQIDs" "Q131105";
                   bound "formsWithThisCombo" "many"]) ValueError).
  - right. left.
  - reflexivity.
Defined.

End FilteringFacts.

(** ** super_chatgpt.py: the child of a call *)

